(** * Payment-channel session coordinator of the dungeon game server

    A shallow embedding of the backend's session negotiation code
    (session-storage, session-create, session-signatures, session-update,
    session-close), of the request table of the RPC client, of the room
    manager, of the movement on the grid and of the game-over handler,
    followed by the properties established about them.

    Conventions of the embedding
    - a JS [Map] keyed by strings is a [gmap string _]; its [size] is [size];
    - [undefined] in a slot that otherwise holds a string is [None];
    - an [async] function is a state transformer over the [World] that
      either returns or throws ([outcome]); what the network does while the
      function is suspended is read from an [RpcEnv];
    - [ethers.getAddress] and the signing helpers of the nitrolite library
      are external: they are section variables. *)

From Stdlib Require Import ZArith String List Bool Lia.
From stdpp Require Import base option strings gmap list fin_maps.

Local Open Scope string_scope.
Local Open Scope Z_scope.

(** ** JavaScript values, as far as the code inspects them *)

Inductive jsval :=
| JUndefined
| JNull
| JBool (b : bool)
| JNum (n : Z)
| JStr (s : string).

(** [!v] is [negb (truthy v)]. *)
Definition truthy (v : jsval) : bool :=
  match v with
  | JUndefined | JNull => false
  | JBool b => b
  | JNum n => negb (n =? 0)
  | JStr s => negb (String.eqb s EmptyString)
  end.

Definition typeof_string (v : jsval) : bool :=
  match v with JStr _ => true | _ => false end.

(** [s.startsWith(p)] *)
Definition startsWith (p s : string) : bool := String.prefix p s.

(** Truthiness of a possibly-undefined string. *)
Definition truthy_str (o : option string) : bool :=
  match o with
  | Some s => negb (String.eqb s EmptyString)
  | None => false
  end.

(** [a || b] on possibly-undefined strings. *)
Definition js_or (a b : option string) : option string :=
  if truthy_str a then a else b.

(** [m.get(k)] where the key expression may evaluate to [undefined]; the
    maps of this program are only ever written with string keys. *)
Definition map_get {V} (m : gmap string V) (k : option string) : option V :=
  match k with
  | Some a => m !! a
  | None => None
  end.

(** ** Data model *)

Record Allocation := {
  participant : string;
  asset : string;
  amount : string
}.

Record AppDefinition := {
  protocol : string;
  participants : list string;
  weights : list Z;
  quorum : Z;
  challenge : Z;
  nonce : Z
}.

(** One entry of the fee history carried in [session_data]. The ISO
    rendering of each timestamp and the constant contribution and pot
    strings are left out. *)
Record FeeEvent := {
  event : string;
  timestamp : Z;
  fee_serverAddress : string;
  feeCharged : option string;
  feeUsed : option bool;
  fee_winner : option string
}.

Record Move := {
  player : string;
  direction : string;
  move_timestamp : Z;
  moveNumber : nat
}.

(** The object that is serialised into [session_data]. *)
Record SessionData := {
  gameType : string;
  sd_betAmount : string;
  sd_feeHistory : list FeeEvent;
  startTime : Z;
  gameState : string;
  sd_winner : option string;
  sd_payouts : list (option string * string);
  sd_gameTime : Z;
  sd_moves : list Move;
  totalMoves : nat;
  sd_serverAddress : string
}.

Record AppSessionData := {
  definition : AppDefinition;
  allocations : list Allocation;
  session_data : SessionData
}.

(** The request tuple [[requestId, method, params, timestamp]]. *)
Record RequestTuple := {
  req_id : Z;
  req_method : string;
  req_params : AppSessionData;
  req_timestamp : Z
}.

(** What [createAppSessionMessage] yields once parsed: [{req, sig}]. *)
Record SignedMessage := {
  msg_req : RequestTuple;
  msg_sig : list string
}.

(** The object stored by [setPendingSession]. It has no [participantB]
    property: reading [pending.participantB] yields [undefined]. *)
Module Pending.
Record t := {
  appSessionData : AppSessionData;
  appDefinition : AppDefinition;
  participantA : string;
  serverAddress : string;
  requestToSign : RequestTuple;
  nonce : Z;
  signatures : gmap string string;
  serverSignature : option string
}.

Definition participantB (p : t) : option string := None.

Definition with_signatures (sigs : gmap string string) (p : t) : t :=
  {| appSessionData := appSessionData p;
     appDefinition := appDefinition p;
     participantA := participantA p;
     serverAddress := serverAddress p;
     requestToSign := requestToSign p;
     nonce := nonce p;
     signatures := sigs;
     serverSignature := serverSignature p |}.
End Pending.

(** The object stored by [setAppSession]. *)
Module Active.
Record t := {
  appSessionId : string;
  participantA : string;
  participantB : option string;
  serverAddress : string;
  betAmount : string;
  createdAt : Z;
  moves : list Move;
  feeHistory : list FeeEvent
}.
End Active.

(** The value returned by [generateAppSessionMessage]. *)
Record Proposal := {
  prop_appSessionData : AppSessionData;
  prop_appDefinition : AppDefinition;
  prop_participants : list string;
  prop_requestToSign : RequestTuple
}.

(** ** What goes over the socket *)

(** [{req, sig}] of the multi-signature creation request; a slot of [sig]
    that holds [undefined] is [None]. *)
Record CompleteRequest := {
  req : RequestTuple;
  sig : list (option string)
}.

Record CloseData := {
  close_app_session_id : string;
  close_allocations : list Allocation;
  close_session_data : SessionData
}.

(** An allocation entry of a state update; its [participant] is read from
    the stored session and may be [undefined]. *)
Record StateAllocation := {
  sa_participant : option string;
  sa_asset : string;
  sa_amount : string
}.

Record StateData := {
  state_app_session_id : string;
  state_allocations : list StateAllocation;
  state_session_data : SessionData
}.

Inductive WireMsg :=
| WCreate (m : CompleteRequest)
| WClose (m : CloseData)
| WState (m : StateData).

(** [params] of a response. *)
Record Response := {
  app_session_id : option string;
  appSessionId_camel : option string
}.

(** Frames delivered to a listener: [{res: [id, method, params]}],
    [{err: [id, code, message]}], or anything else. *)
Inductive Frame :=
| FRes (reqId : Z) (method : string) (params : Response)
| FErr (reqId : Z) (errorCode : Z) (errorMsg : string)
| FOther.

(** ** Errors *)

Inductive jserror :=
| NoPendingSession (roomId : string)
| NotAllSignatures (have : nat)
| InvalidAddress (a : string)
| ClientNotInitialized
| ConnectFailed
| SigningFailed
| WebSocketNotInitialized
| WebSocketNotConnected (readyState : Z)
| TimedOut (what : string)
| LedgerError (what : string) (errorMsg : string)
| NoSessionId
| TypeError (what : string)
| ReferenceError (ident : string).

Inductive outcome (A : Type) :=
| Returned (a : A)
| Thrown (e : jserror).
Arguments Returned {A} a.
Arguments Thrown {A} e.

(** ** The module-level state and the effect monad *)

Record World := {
  roomAppSessions : gmap string Active.t;
  pendingAppSessions : gmap string Pending.t;
  wire : list WireMsg
}.

Definition Eff (A : Type) : Type := World -> outcome A * World.

Definition ret {A} (a : A) : Eff A := fun w => (Returned a, w).

Definition throw {A} (e : jserror) : Eff A := fun w => (Thrown e, w).

Definition bind {A B} (m : Eff A) (k : A -> Eff B) : Eff B :=
  fun w =>
    match m w with
    | (Returned a, w') => k a w'
    | (Thrown e, w') => (Thrown e, w')
    end.

(** [try { body } catch (error) { handler(error) }] *)
Definition try_catch {A} (body : Eff A) (handler : jserror -> Eff A) : Eff A :=
  fun w =>
    match body w with
    | (Returned a, w') => (Returned a, w')
    | (Thrown e, w') => handler e w'
    end.

Declare Scope eff_scope.
Delimit Scope eff_scope with eff.
Notation "'do' x <- m ; k" := (bind m (fun x => k))
  (at level 10, x name, m at level 100, k at level 200) : eff_scope.
Notation "m ;; k" := (bind m (fun _ => k))
  (at level 100, k at level 200, right associativity) : eff_scope.

(** *** session-storage *)

Definition getAppSession (roomId : string) : Eff (option Active.t) :=
  fun w => (Returned (roomAppSessions w !! roomId), w).

Definition hasAppSession (roomId : string) : Eff bool :=
  fun w => (Returned (bool_decide (is_Some (roomAppSessions w !! roomId))), w).

Definition setAppSession (roomId : string) (s : Active.t) : Eff unit :=
  fun w => (Returned tt,
            {| roomAppSessions := <[roomId := s]> (roomAppSessions w);
               pendingAppSessions := pendingAppSessions w;
               wire := wire w |}).

Definition deleteAppSession (roomId : string) : Eff unit :=
  fun w => (Returned tt,
            {| roomAppSessions := delete roomId (roomAppSessions w);
               pendingAppSessions := pendingAppSessions w;
               wire := wire w |}).

Definition getPendingSession (roomId : string) : Eff (option Pending.t) :=
  fun w => (Returned (pendingAppSessions w !! roomId), w).

Definition setPendingSession (roomId : string) (p : Pending.t) : Eff unit :=
  fun w => (Returned tt,
            {| roomAppSessions := roomAppSessions w;
               pendingAppSessions := <[roomId := p]> (pendingAppSessions w);
               wire := wire w |}).

Definition deletePendingSession (roomId : string) : Eff unit :=
  fun w => (Returned tt,
            {| roomAppSessions := roomAppSessions w;
               pendingAppSessions := delete roomId (pendingAppSessions w);
               wire := wire w |}).

Definition hasPendingSession (roomId : string) : Eff bool :=
  fun w => (Returned (bool_decide (is_Some (pendingAppSessions w !! roomId))), w).

(** [ws.send(m)] *)
Definition ws_send (m : WireMsg) : Eff unit :=
  fun w => (Returned tt,
            {| roomAppSessions := roomAppSessions w;
               pendingAppSessions := pendingAppSessions w;
               wire := wire w ++ [m] |}).

(** ** The RPC client as seen by the session functions *)

(** What the surroundings do during one call: whether the singleton client
    exists, whether [ensureConnected] succeeds, the socket observed at the
    readiness check ([None]: [rpcClient.ws] is null), the frames that
    reach the listener before the 30 s timer fires, and the clock (every
    read of [Date.now()] within one call sees the same value). *)
Record RpcEnv := {
  clientInitialized : bool;
  connectSucceeds : bool;
  sessionKeyAddress : string;
  signingSucceeds : bool;
  wsReadyState : option Z;
  inbound : list Frame;
  now : Z
}.

Definition getRPCClient (env : RpcEnv) : Eff unit :=
  if clientInitialized env then ret tt else throw ClientNotInitialized.

Definition ensureConnected (env : RpcEnv) : Eff unit :=
  if connectSucceeds env then ret tt else throw ConnectFailed.

(** The two checks on [rpcClient.ws] made before a direct send. *)
Definition checkSocket (env : RpcEnv) : Eff unit :=
  match wsReadyState env with
  | None => throw WebSocketNotInitialized
  | Some st => if st =? 1 then ret tt else throw (WebSocketNotConnected st)
  end.

(** The listener installed around a direct send: frames are examined in
    arrival order; a [res] frame whose method is [tag] resolves, any [err]
    frame rejects, everything else is ignored; when the frames run out the
    30 s timer rejects. *)
Fixpoint awaitByMethod (tag : string) (frames : list Frame) : outcome Response :=
  match frames with
  | [] => Thrown (TimedOut tag)
  | FRes _ method params :: rest =>
      if String.eqb method tag then Returned params else awaitByMethod tag rest
  | FErr _ _ errorMsg :: _ => Thrown (LedgerError tag errorMsg)
  | FOther :: rest => awaitByMethod tag rest
  end.

(** [ws.on('message', handler); ws.send(m)] and the wait for the promise. *)
Definition sendAndAwait (env : RpcEnv) (tag : string) (m : WireMsg) : Eff Response :=
  (ws_send m ;;
   fun w => (awaitByMethod tag (inbound env), w))%eff.

Section Nitrolite.

(** [ethers.getAddress]: the canonical (checksummed) form of an address,
    or an exception ([None]) when the argument is not an address. *)
Variable getAddress : string -> option string.

(** [createAppSessionMessage(sign, data)] of the nitrolite library, parsed:
    the request tuple it builds at the given clock value and the list of
    signatures over it; [None] when signing throws. *)
Variable createAppSessionMessage : Z -> AppSessionData -> option SignedMessage.

Definition formatAddress (a : string) : Eff string :=
  match getAddress a with
  | Some f => ret f
  | None => throw (InvalidAddress a)
  end.

(** *** session-create: [generateAppSessionMessage] *)

Definition proposal_of (pending : Pending.t) : Proposal :=
  {| prop_appSessionData := Pending.appSessionData pending;
     prop_appDefinition := Pending.appDefinition pending;
     prop_participants := [Pending.participantA pending; Pending.serverAddress pending];
     prop_requestToSign := Pending.requestToSign pending |}.

Definition initialSessionData (env : RpcEnv) (serverAddress : string) : SessionData :=
  {| gameType := "viper_duel";
     sd_betAmount := "0";
     sd_feeHistory :=
       [ {| event := "session_created";
            timestamp := now env;
            fee_serverAddress := serverAddress;
            feeCharged := Some "0";
            feeUsed := Some false;
            fee_winner := None |} ];
     startTime := now env;
     gameState := "created";
     sd_winner := None;
     sd_payouts := [];
     sd_gameTime := 0;
     sd_moves := [];
     totalMoves := 0;
     sd_serverAddress := serverAddress |}.

Definition generateAppSessionMessage (env : RpcEnv) (roomId participantA : string)
  : Eff Proposal :=
  try_catch
    (do formattedA <- formatAddress participantA;
     do pending <- getPendingSession roomId;
     match pending with
     | Some pending => ret (proposal_of pending)
     | None =>
         getRPCClient env ;;
         ensureConnected env ;;
         do serverAddress <- formatAddress (sessionKeyAddress env);
         let nonce := now env in
         let appDefinition :=
           {| protocol := "NitroRPC/0.4";
              participants := [formattedA; serverAddress];
              weights := [0; 100];
              quorum := 100;
              challenge := 0;
              nonce := nonce |} in
         let appSessionData :=
           {| definition := appDefinition;
              allocations :=
                [ {| participant := formattedA; asset := "usdc"; amount := "0" |} ];
              session_data := initialSessionData env serverAddress |} in
         match createAppSessionMessage (now env) appSessionData with
         | None => throw SigningFailed
         | Some parsedMessage =>
             let requestToSign := msg_req parsedMessage in
             let serverSignature := head (msg_sig parsedMessage) in
             setPendingSession roomId
               {| Pending.appSessionData := appSessionData;
                  Pending.appDefinition := appDefinition;
                  Pending.participantA := formattedA;
                  Pending.serverAddress := serverAddress;
                  Pending.requestToSign := requestToSign;
                  Pending.nonce := nonce;
                  Pending.signatures := ∅;
                  Pending.serverSignature := serverSignature |} ;;
             ret {| prop_appSessionData := appSessionData;
                    prop_appDefinition := appDefinition;
                    prop_participants := [formattedA; serverAddress];
                    prop_requestToSign := requestToSign |}
         end
     end)%eff
    (fun error => throw error).

(** *** session-signatures: [addAppSessionSignature] *)

(** The stored pending object is mutated in place:
    [pending.signatures.set(formattedAddress, signature)]. *)
Definition addAppSessionSignature (roomId playerEOA : string) (signature : jsval)
  : Eff bool :=
  (do pending <- getPendingSession roomId;
   match pending with
   | None => ret false
   | Some pending =>
       do formattedAddress <- formatAddress playerEOA;
       if negb (truthy signature) || negb (typeof_string signature) then ret false
       else
         match signature with
         | JStr s =>
             if negb (startsWith "0x" s) then ret false
             else
               (* a length other than 132 is logged as suspicious, nothing more *)
               let pending' :=
                 Pending.with_signatures
                   (<[formattedAddress := s]> (Pending.signatures pending)) pending in
               setPendingSession roomId pending' ;;
               ret (Nat.eqb (size (Pending.signatures pending')) 2)
         | _ => ret false
         end
   end)%eff.

(** *** session-signatures: [createAppSessionWithSignatures] *)

Definition assembleRequest (pending : Pending.t) : CompleteRequest :=
  let sigA := Pending.signatures pending !! Pending.participantA pending in
  let sigB := map_get (Pending.signatures pending) (Pending.participantB pending) in
  let sigServer := Pending.serverSignature pending in
  {| req := Pending.requestToSign pending;
     sig := [sigA; sigB; sigServer] |}.

Definition activate (env : RpcEnv) (pending : Pending.t) (appSessionId betAmount : string)
  : Active.t :=
  {| Active.appSessionId := appSessionId;
     Active.participantA := Pending.participantA pending;
     Active.participantB := Pending.participantB pending;
     Active.serverAddress := Pending.serverAddress pending;
     Active.betAmount := betAmount;
     Active.createdAt := now env;
     Active.moves := [];
     Active.feeHistory :=
       [ {| event := "session_created";
            timestamp := req_id (Pending.requestToSign pending);
            fee_serverAddress := Pending.serverAddress pending;
            feeCharged := Some "0";
            feeUsed := Some false;
            fee_winner := None |};
         {| event := "game_started";
            timestamp := now env;
            fee_serverAddress := Pending.serverAddress pending;
            feeCharged := Some "0";
            feeUsed := Some true;
            fee_winner := None |} ] |}.

Definition createAppSessionWithSignatures (env : RpcEnv) (roomId : string) : Eff string :=
  (do pending <- getPendingSession roomId;
   match pending with
   | None => throw (NoPendingSession roomId)
   | Some pending =>
       if negb (Nat.eqb (size (Pending.signatures pending)) 2)
       then throw (NotAllSignatures (size (Pending.signatures pending)))
       else
         try_catch
           (getRPCClient env ;;
            ensureConnected env ;;
            let completeRequest := assembleRequest pending in
            checkSocket env ;;
            do response <- sendAndAwait env "create_app_session" (WCreate completeRequest);
            let appSessionId := js_or (app_session_id response) (appSessionId_camel response) in
            match appSessionId with
            | Some id =>
                if negb (truthy_str appSessionId) then throw NoSessionId
                else
                  match head (allocations (Pending.appSessionData pending)) with
                  | None => throw (TypeError "allocations[0]")
                  | Some a0 =>
                      setAppSession roomId (activate env pending id (amount a0)) ;;
                      deletePendingSession roomId ;;
                      ret id
                  end
            | None => throw NoSessionId
            end)
           (fun error => throw error)
   end)%eff.

(** *** session-signatures: [addMoveToSession] *)

Definition addMoveToSession (roomId playerEOA direction : string) (ts : Z) : Eff unit :=
  (do session <- getAppSession roomId;
   match session with
   | None => ret tt
   | Some session =>
       do p <- formatAddress playerEOA;
       let move :=
         {| player := p; direction := direction; move_timestamp := ts;
            moveNumber := S (length (Active.moves session)) |} in
       setAppSession roomId
         {| Active.appSessionId := Active.appSessionId session;
            Active.participantA := Active.participantA session;
            Active.participantB := Active.participantB session;
            Active.serverAddress := Active.serverAddress session;
            Active.betAmount := Active.betAmount session;
            Active.createdAt := Active.createdAt session;
            Active.moves := Active.moves session ++ [move];
            Active.feeHistory := Active.feeHistory session |}
   end)%eff.

(** *** session-close: [closeAppSession]

    The third parameter [gameData] only feeds the [endCondition] and
    [finalScores] entries of the session data, which are not modelled. *)

(** The [payout] expression of one player entry:
    [!formattedWinner ? session.betAmount
      : (formattedWinner === who ? totalPot.toString() : '0')].
    No binding of [totalPot] is in scope in [closeAppSession]; evaluating
    that branch throws a ReferenceError. *)
Definition payout (formattedWinner : option string) (betAmount : string)
    (who : option string) : Eff string :=
  if negb (truthy_str formattedWinner) then ret betAmount
  else if bool_decide (formattedWinner = who) then throw (ReferenceError "totalPot")
  else ret "0".

(** The [allocations] assigned in the two branches on the outcome: both
    array literals are empty. *)
Definition closeAllocations (formattedWinner : option string) : list Allocation :=
  if negb (truthy_str formattedWinner) then [] else [].

Definition closeAppSession (env : RpcEnv) (roomId : string) (winnerEOA : option string)
  : Eff unit :=
  (do session <- getAppSession roomId;
   match session with
   | None => ret tt
   | Some session =>
       try_catch
         (getRPCClient env ;;
          ensureConnected env ;;
          do formattedWinner <-
            (match winnerEOA with
             | Some a =>
                 if truthy_str winnerEOA
                 then (do f <- formatAddress a; ret (Some f))
                 else ret None
             | None => ret None
             end);
          do payout1 <- payout formattedWinner (Active.betAmount session)
                          (Some (Active.participantA session));
          do payout2 <- payout formattedWinner (Active.betAmount session)
                          (Active.participantB session);
          let finalSessionData :=
            {| gameType := "viper_duel";
               sd_betAmount := Active.betAmount session;
               sd_feeHistory :=
                 Active.feeHistory session ++
                 [ {| event := "game_ended";
                      timestamp := now env;
                      fee_serverAddress := Active.serverAddress session;
                      feeCharged := None;
                      feeUsed := None;
                      fee_winner := formattedWinner |} ];
               startTime := Active.createdAt session;
               gameState := "closed";
               sd_winner := formattedWinner;
               sd_payouts :=
                 [ (Some (Active.participantA session), payout1);
                   (Active.participantB session, payout2) ];
               sd_gameTime := now env - Active.createdAt session;
               sd_moves := Active.moves session;
               totalMoves := length (Active.moves session);
               sd_serverAddress := Active.serverAddress session |} in
          let allocations := closeAllocations formattedWinner in
          let closeData :=
            {| close_app_session_id := Active.appSessionId session;
               close_allocations := allocations;
               close_session_data := finalSessionData |} in
          (if signingSucceeds env then ret tt else throw SigningFailed) ;;
          checkSocket env ;;
          sendAndAwait env "close_app_session" (WClose closeData) ;;
          deleteAppSession roomId)
         (fun error => throw error)
   end)%eff.

(** *** session-update: [submitAppState]

    Of [gameStateUpdate] only [gameTime] is kept. *)

Definition submitAppState (env : RpcEnv) (roomId : string) (gameTime : Z) : Eff unit :=
  (do session <- getAppSession roomId;
   match session with
   | None => ret tt
   | Some session =>
       try_catch
         (getRPCClient env ;;
          ensureConnected env ;;
          let allocations :=
            [ {| sa_participant := Some (Active.participantA session);
                 sa_asset := "usdc"; sa_amount := Active.betAmount session |};
              {| sa_participant := Active.participantB session;
                 sa_asset := "usdc"; sa_amount := Active.betAmount session |};
              {| sa_participant := Some (Active.serverAddress session);
                 sa_asset := "usdc"; sa_amount := "0" |} ] in
          let updatedSessionData :=
            {| gameType := "viper_duel";
               sd_betAmount := Active.betAmount session;
               sd_feeHistory := Active.feeHistory session;
               startTime := Active.createdAt session;
               gameState := "playing";
               sd_winner := None;
               sd_payouts := [];
               sd_gameTime := gameTime;
               sd_moves := Active.moves session;
               totalMoves := length (Active.moves session);
               sd_serverAddress := Active.serverAddress session |} in
          let stateData :=
            {| state_app_session_id := Active.appSessionId session;
               state_allocations := allocations;
               state_session_data := updatedSessionData |} in
          (if signingSucceeds env then ret tt else throw SigningFailed) ;;
          checkSocket env ;;
          sendAndAwait env "submit_app_state" (WState stateData) ;;
          ret tt)
         (fun error => ret tt)
   end)%eff.

End Nitrolite.

(** ** The RPC client's request table (class [NitroliteRPCClient]) *)

Module Client.

Inductive WSStatus :=
| CONNECTED
| CONNECTING
| DISCONNECTED
| AUTHENTICATING
| AUTH_FAILED.

Global Instance WSStatus_eq_dec : EqDecision WSStatus.
Proof. solve_decision. Defined.

(** A parsed inbound message, reduced to what [handleMessage] reads:
    [message.requestId || message.res?.[0]], whether its method is the
    error method, and the error text of its params. *)
Record Message := {
  requestId : option Z;
  isError : bool;
  errorText : option string;
  result : string
}.

(** What a step does to the outside: settle the promise returned by the
    [sendRequest] call that drew the id, write to the socket, or notify the
    status listeners. *)
Inductive Effect :=
| Resolve (id : Z) (result : string)
| Reject (id : Z) (reason : string)
| Send (id : Z) (method : string)
| StatusChanged (s : WSStatus).

(** [ws] is the socket's [readyState] ([None]: [this.ws] is null);
    [pendingRequests] holds the ids whose callbacks are registered. *)
Record t := {
  ws : option Z;
  status : WSStatus;
  pendingRequests : gset Z;
  nextRequestId : Z
}.

Definition OPEN : Z := 1.
Definition CLOSED : Z := 3.

Definition setStatus (newStatus : WSStatus) (c : t) : t * list Effect :=
  if bool_decide (status c = newStatus) then (c, [])
  else ({| ws := ws c; status := newStatus;
           pendingRequests := pendingRequests c;
           nextRequestId := nextRequestId c |},
        [StatusChanged newStatus]).

(** The listener registered by [connect] for a socket's [close] event: it
    only sets the status. It stays attached to the socket it was registered
    on, so it also runs when a socket closes that a later [connect] has
    replaced; [this.ws] is not touched. *)
Definition onClose (c : t) : t * list Effect :=
  setStatus DISCONNECTED c.

(** The current socket reaches the state CLOSED (the socket library does
    this before it emits the close event of that socket). *)
Definition socketClosed (c : t) : t :=
  {| ws := (fun _ => CLOSED) <$> ws c; status := status c;
     pendingRequests := pendingRequests c;
     nextRequestId := nextRequestId c |}.

Definition disconnect (c : t) : t * list Effect :=
  setStatus DISCONNECTED
    {| ws := None; status := status c;
       pendingRequests := pendingRequests c;
       nextRequestId := nextRequestId c |}.

Definition handleMessage (m : Message) (c : t) : t * list Effect :=
  match requestId m with
  | Some id =>
      if bool_decide (id ∈ pendingRequests c) then
        ({| ws := ws c; status := status c;
            pendingRequests := pendingRequests c ∖ {[id]};
            nextRequestId := nextRequestId c |},
         [if isError m
          then Reject id ("RPC Error: " ++ default "Unknown error" (errorText m))
          else Resolve id (result m)])
      else (c, [])
  | None => (c, [])
  end.

(** [sendRequest(method, params)]: [None] when it throws because the
    socket is not open; otherwise the id drawn. [signs] tells whether
    signing the request succeeds. *)
Definition sendRequest (signs : bool) (method : string) (c : t)
  : option Z * t * list Effect :=
  if bool_decide (ws c = Some OPEN) then
    let id := nextRequestId c in
    if signs then
      (Some id,
       {| ws := ws c; status := status c;
          pendingRequests := pendingRequests c ∪ {[id]};
          nextRequestId := id + 1 |},
       [Send id method])
    else
      (Some id,
       {| ws := ws c; status := status c;
          pendingRequests := pendingRequests c ∖ {[id]};
          nextRequestId := id + 1 |},
       [Reject id "signing failed"])
  else (None, c, []).

(** The callback of the 10 s timer armed by [sendRequest] for [id]. *)
Definition onTimer (id : Z) (c : t) : t * list Effect :=
  if bool_decide (id ∈ pendingRequests c) then
    ({| ws := ws c; status := status c;
        pendingRequests := pendingRequests c ∖ {[id]};
        nextRequestId := nextRequestId c |},
     [Reject id "Request timeout"])
  else (c, []).

Definition rejects (id : Z) (e : Effect) : bool :=
  match e with
  | Reject id' _ => bool_decide (id' = id)
  | _ => false
  end.

End Client.

(** ** Movement on the grid (game-movement: [moveActor], [changeDirection],
    [updateGame]) *)

Module Game.

(** An actor object. *)
Record Actor := {
  hp : Z;
  x : Z;
  y : Z;
  isPlayer : bool;
  damage : string;
  id : option string;
  eoa : option string
}.

(** The game state. [actorList] holds the actor objects; [player] and the
    values of [actorMap] are references to them, modelled as positions in
    [actorList], so that a write to an actor is seen through all of them.
    The key [x + '_' + y] of [actorMap] is the pair of coordinates.
    [map] is [map.map], indexed [x] then [y]. [players] is [None] when the
    state has no [players] property; its content is [players.host]. *)
Record State := {
  map : list (list Z);
  actorList : list Actor;
  actorMap : gmap (Z * Z) nat;
  player : option nat;
  players : option (option string);
  lastMove : option Z;
  winner : option string;
  isGameOver : bool;
  gameTime : Z
}.

(** [{success: true, gameState}], [{success: false, error}], or an
    exception. *)
Inductive Result :=
| Success (g : State)
| Failure (error : string)
| Throws (what : string).

(** The [switch] on the direction: the change of [(x, y)]. *)
Definition delta (direction : string) : option (Z * Z) :=
  if String.eqb direction "UP" then Some (0, -1)
  else if String.eqb direction "DOWN" then Some (0, 1)
  else if String.eqb direction "LEFT" then Some (-1, 0)
  else if String.eqb direction "RIGHT" then Some (1, 0)
  else None.

(** [actorList.find(a => a.id === actorId)], as a reference. *)
Fixpoint findById (actorId : string) (l : list Actor) (i : nat) : option nat :=
  match l with
  | [] => None
  | a :: rest =>
      if bool_decide (id a = Some actorId) then Some i else findById actorId rest (S i)
  end.

Definition findActor (g : State) (actorId : string) : option nat :=
  if String.eqb actorId "player" then player g else findById actorId (actorList g) 0.

Definition moveTo (a : Actor) (newX newY : Z) : Actor :=
  {| hp := hp a; x := newX; y := newY; isPlayer := isPlayer a;
     damage := damage a; id := id a; eoa := eoa a |}.

(** [gameState.lastMove && now - gameState.lastMove < 1000] *)
Definition tooFast (lastMove : option Z) (now : Z) : bool :=
  match lastMove with
  | Some t => negb (t =? 0) && (now - t <? 1000)
  | None => false
  end.

Section Grid.

Variables GRID_WIDTH GRID_HEIGHT : Z.

Definition moveActor (g : State) (actorId direction : string) (now : Z) : Result :=
  match findActor g actorId with
  | None => Failure "Actor not found"
  | Some ref =>
      match actorList g !! ref with
      | None => Failure "Actor not found"
      | Some actor =>
          match delta direction with
          | None => Failure "Invalid direction"
          | Some (dx, dy) =>
              let newX := x actor + dx in
              let newY := y actor + dy in
              if (newX <? 0) || (newX >=? GRID_WIDTH) || (newY <? 0) || (newY >=? GRID_HEIGHT)
              then Failure "Out of bounds"
              else
                match map g !! Z.to_nat newX with
                | None => Throws "TypeError"
                | Some column =>
                    if negb (bool_decide (column !! Z.to_nat newY = Some 0))
                    then Failure "Blocked by wall"
                    else if tooFast (lastMove g) now then Failure "TOO_FAST"
                    else
                      match actorMap g !! (newX, newY) with
                      | Some _ => Failure "Blocked by actor"
                      | None =>
                          Success
                            {| map := map g;
                               actorList := <[ref := moveTo actor newX newY]> (actorList g);
                               actorMap :=
                                 <[(newX, newY) := ref]>
                                   (delete (x actor, y actor) (actorMap g));
                               player := player g;
                               players := players g;
                               lastMove := Some now;
                               winner := winner g;
                               isGameOver := isGameOver g;
                               gameTime := gameTime g |}
                      end
                end
          end
      end
  end.

Variable getAddress : string -> option string.

Definition changeDirection (g : State) (direction playerEoa : string) (now : Z) : Result :=
  match getAddress playerEoa with
  | None => Throws "invalid address"
  | Some formattedPlayerEoa =>
      if isGameOver g then Failure "Game is already over"
      else
        match players g with
        | None => Throws "TypeError"
        | Some host =>
            if negb (bool_decide (host = Some formattedPlayerEoa))
            then Failure "Only host can move"
            else moveActor g "player" direction now
        end
  end.

End Grid.

Definition updateGame (g : State) : Result :=
  if isGameOver g then Success g
  else Success
         {| map := map g; actorList := actorList g; actorMap := actorMap g;
            player := player g; players := players g; lastMove := lastMove g;
            winner := winner g; isGameOver := isGameOver g;
            gameTime := gameTime g + 1 |}.

(** The vector-to-direction table of the room manager's
    [processDirectionChange]. *)
Definition directionOfVector (vx vy : Z) : option string :=
  if (vx =? 0) && (vy =? -1) then Some "UP"
  else if (vx =? 0) && (vy =? 1) then Some "DOWN"
  else if (vx =? -1) && (vy =? 0) then Some "LEFT"
  else if (vx =? 1) && (vy =? 0) then Some "RIGHT"
  else None.

(** Every actor is filed in [actorMap] under its own cell, and every
    entry of [actorMap] refers to an actor standing on that cell. *)
Definition consistent (g : State) : Prop :=
  (forall i a, actorList g !! i = Some a -> actorMap g !! (x a, y a) = Some i)
  /\ (forall k i, actorMap g !! k = Some i ->
        exists a, actorList g !! i = Some a /\ (x a, y a) = k).

End Game.


(** ** The room manager ([createRoomManager] with [joinRoom]) *)

Module Rooms.

(** [room.gameState]: [null], the empty object that [createRoom] stores,
    or a game state. *)
Inductive Slot :=
| SlotNull
| SlotEmpty
| SlotGame (g : Game.State).

Inductive JoinResult (K : Type) :=
| Joined (roomId : K) (isRoomReady : bool)
| JoinFailed (error : string)
| JoinThrows.
Arguments Joined {K} roomId isRoomReady.
Arguments JoinFailed {K} error.
Arguments JoinThrows {K}.

Inductive LeaveResult (K : Type) :=
| Left (roomId : K)
| LeaveFailed (error : string)
| LeaveThrows.
Arguments Left {K} roomId.
Arguments LeaveFailed {K} error.
Arguments LeaveThrows {K}.

Section Manager.

(** Room ids are whatever [ws.id] holds; the manager only compares them. *)
Context {K : Type} `{Countable K}.

(** A WebSocket object as the manager uses it: its [id] property, its
    [readyState] and what was sent on it. *)
Record Socket := {
  ws_id : K;
  readyState : Z;
  outbox : list (string * string)
}.

(** A room. [connections] maps an address to the socket of [{ws}];
    [host] is [players.host]; [playereoa] is the property the start-game
    handler sets. *)
Record Room := {
  id : K;
  host : option string;
  connections : gmap string nat;
  gameState : Slot;
  isReady : bool;
  createdAt : Z;
  playereoa : option string
}.

(** The two maps of the manager and the socket objects, by reference. *)
Record t := {
  rooms : gmap K Room;
  addressToRoom : gmap string K;
  sockets : nat -> Socket
}.

Definition setSocket (ws : nat) (s : Socket) (socks : nat -> Socket) : nat -> Socket :=
  fun h => if bool_decide (h = ws) then s else socks h.

Definition createRoom (ws : nat) (now : Z) (m : t) : K * t :=
  let roomId := ws_id (sockets m ws) in
  (roomId,
   {| rooms :=
        <[roomId := {| id := roomId; host := None; connections := ∅;
                       gameState := SlotEmpty; isReady := true;
                       createdAt := now; playereoa := None |}]> (rooms m);
      addressToRoom := addressToRoom m;
      sockets := sockets m |}).

Variable getAddress : string -> option string.

Definition joinRoom (roomId : K) (eoa : string) (ws : nat) (m : t) : JoinResult K * t :=
  match getAddress eoa with
  | None => (JoinThrows, m)
  | Some formattedEoa =>
      match rooms m !! roomId with
      | None => (JoinFailed "Room not found", m)
      | Some room =>
          if match addressToRoom m !! formattedEoa with
             | Some existingRoomId => negb (bool_decide (existingRoomId = roomId))
             | None => false
             end
          then (JoinFailed "Player already in another room", m)
          else
            let room' :=
              {| id := id room; host := Some formattedEoa;
                 connections := <[formattedEoa := ws]> (connections room);
                 gameState := gameState room; isReady := isReady room;
                 createdAt := createdAt room; playereoa := playereoa room |} in
            (Joined roomId (isReady room),
             {| rooms := <[roomId := room']> (rooms m);
                addressToRoom := <[formattedEoa := roomId]> (addressToRoom m);
                sockets :=
                  setSocket ws
                    {| ws_id := roomId; readyState := readyState (sockets m ws);
                       outbox := outbox (sockets m ws) |} (sockets m) |})
      end
  end.

Definition leaveRoom (eoa : string) (m : t) : LeaveResult K * t :=
  match getAddress eoa with
  | None => (LeaveThrows, m)
  | Some formattedEoa =>
      match addressToRoom m !! formattedEoa with
      | None => (LeaveFailed "Player not in any room", m)
      | Some roomId =>
          let rooms' :=
            match rooms m !! roomId with
            | Some room =>
                let room' :=
                  {| id := id room;
                     host := if bool_decide (host room = Some formattedEoa)
                             then None else host room;
                     connections := delete formattedEoa (connections room);
                     gameState := gameState room; isReady := isReady room;
                     createdAt := createdAt room; playereoa := playereoa room |} in
                if negb (truthy_str (playereoa room))
                then delete roomId (rooms m)
                else <[roomId := room']> (rooms m)
            | None => rooms m
            end in
          (Left roomId,
           {| rooms := rooms';
              addressToRoom := delete formattedEoa (addressToRoom m);
              sockets := sockets m |})
      end
  end.

(** [ws.send(message)] *)
Definition send (ws : nat) (message : string * string) (socks : nat -> Socket)
  : nat -> Socket :=
  setSocket ws
    {| ws_id := ws_id (socks ws); readyState := readyState (socks ws);
       outbox := outbox (socks ws) ++ [message] |} socks.

(** [ws.close()]: an open or connecting socket starts closing. *)
Definition close (ws : nat) (socks : nat -> Socket) : nat -> Socket :=
  if (readyState (socks ws) =? 2) || (readyState (socks ws) =? 3) then socks
  else setSocket ws
         {| ws_id := ws_id (socks ws); readyState := 2; outbox := outbox (socks ws) |} socks.

(** The loop over [room.connections.values()] of [broadcastToRoom]. *)
Definition broadcastToRoom (roomId : K) (type data : string) (m : t) : t :=
  match rooms m !! roomId with
  | None => m
  | Some room =>
      {| rooms := rooms m;
         addressToRoom := addressToRoom m;
         sockets :=
           map_fold
             (fun _ ws socks =>
                if readyState (socks ws) =? 1 then send ws (type, data) socks else socks)
             (sockets m) (connections room) |}
  end.

Definition closeRoom (roomId : K) (m : t) : t :=
  match rooms m !! roomId with
  | None => m
  | Some room =>
      {| rooms := delete roomId (rooms m);
         addressToRoom := addressToRoom m;
         sockets := map_fold (fun _ ws socks => close ws socks) (sockets m) (connections room) |}
  end.

(** An address connected in a room is bound to that room. *)
Definition connectedIsBound (m : t) : Prop :=
  forall roomId room a ws,
    rooms m !! roomId = Some room ->
    connections room !! a = Some ws ->
    addressToRoom m !! a = Some roomId.

End Manager.

Arguments Socket K : clear implicits.
Arguments Room K : clear implicits.
Arguments t K {_ _}.

End Rooms.


(** ** The wrap-around grid of the snake movement ([calculateNewHead] and
    the collision tests) *)

Module Snake.

Record Position := { x : Z; y : Z }.

Section Grid.

Variables GRID_WIDTH GRID_HEIGHT : Z.

(** [None] is the TypeError raised when the direction is none of the
    four and [newHead] stays undefined. *)
Definition calculateNewHead (head : Position) (direction : string) : option Position :=
  let moved :=
    if String.eqb direction "UP" then Some {| x := x head; y := y head - 1 |}
    else if String.eqb direction "DOWN" then Some {| x := x head; y := y head + 1 |}
    else if String.eqb direction "LEFT" then Some {| x := x head - 1; y := y head |}
    else if String.eqb direction "RIGHT" then Some {| x := x head + 1; y := y head |}
    else None in
  match moved with
  | None => None
  | Some newHead =>
      let wx := if x newHead <? 0 then GRID_WIDTH - 1
                else if x newHead >=? GRID_WIDTH then 0 else x newHead in
      let wy := if y newHead <? 0 then GRID_HEIGHT - 1
                else if y newHead >=? GRID_HEIGHT then 0 else y newHead in
      Some {| x := wx; y := wy |}
  end.

(** [n] steps in one direction. *)
Fixpoint steps (n : nat) (direction : string) (head : Position) : option Position :=
  match n with
  | O => Some head
  | S n' =>
      match calculateNewHead head direction with
      | Some next => steps n' direction next
      | None => None
      end
  end.

End Grid.

Definition samePosition (a b : Position) : bool := (x a =? x b) && (y a =? y b).

(** [snake.body.some(segment => ...)] *)
Definition checkSelfCollision (newHead : Position) (body : list Position) : bool :=
  existsb (fun segment => samePosition segment newHead) body.

(** [food.findIndex(f => ...)]; [None] is -1. *)
Fixpoint checkFoodCollision (newHead : Position) (food : list Position) : option nat :=
  match food with
  | [] => None
  | f :: rest =>
      if samePosition f newHead then Some 0%nat
      else S <$> checkFoodCollision newHead rest
  end.

Definition opposite (direction : string) : string :=
  if String.eqb direction "UP" then "DOWN"
  else if String.eqb direction "DOWN" then "UP"
  else if String.eqb direction "LEFT" then "RIGHT"
  else "LEFT".

Definition inGrid (w h : Z) (p : Position) : Prop :=
  0 <= x p < w /\ 0 <= y p < h.

End Snake.

(** ** The game-over handler ([handleGameOverAppSession]) *)

(** The handler looks the room up, takes the room's host as winner when
    the game names [player1], closes the stored session if there is one,
    and catches whatever is thrown on the way. Rooms of this manager have
    no [appId] property, so the branch on it is never taken. *)
Definition handleGameOverAppSession (getAddress : string -> option string) (env : RpcEnv)
    (roomId : string) (gameWinner : option string) (rooms : Rooms.t string)
  : Eff unit :=
  try_catch
    (match Rooms.rooms rooms !! roomId with
     | None => ret tt
     | Some room =>
         let winnerEOA :=
           if bool_decide (gameWinner = Some "player1") then Rooms.host room else None in
         (do has <- hasAppSession roomId;
          if has then closeAppSession getAddress env roomId winnerEOA else ret tt)%eff
     end)
    (fun error => ret tt).


(** ** Auxiliary notions for the properties *)

(** A frame that ends a wait for [tag]: a response with that method, or any
    error frame. *)
Definition decisive (tag : string) (f : Frame) : bool :=
  match f with
  | FRes _ method _ => String.eqb method tag
  | FErr _ _ _ => true
  | FOther => false
  end.

(** What a decisive frame makes of the wait. *)
Definition verdict (tag : string) (f : Frame) : outcome Response :=
  match f with
  | FRes _ _ params => Returned params
  | FErr _ _ errorMsg => Thrown (LedgerError tag errorMsg)
  | FOther => Thrown (TimedOut tag)
  end.

(** The client as its constructor leaves it. *)
Definition newClient : Client.t :=
  {| Client.ws := None;
     Client.status := Client.DISCONNECTED;
     Client.pendingRequests := ∅;
     Client.nextRequestId := 1 |}.

(** [connect()] up to the creation of the socket: nothing when the socket
    is open, otherwise the status becomes CONNECTING and a new socket in
    state CONNECTING (0) replaces the old one. *)
Definition connectBegin (c : Client.t) : Client.t * list Client.Effect :=
  if bool_decide (Client.ws c = Some Client.OPEN) then (c, [])
  else
    let '(c1, effs) := Client.setStatus Client.CONNECTING c in
    ({| Client.ws := Some 0; Client.status := Client.status c1;
        Client.pendingRequests := Client.pendingRequests c1;
        Client.nextRequestId := Client.nextRequestId c1 |}, effs).

(** The socket's [open] listener: the status becomes AUTHENTICATING, then
    CONNECTED when authentication succeeds; when it fails the status
    becomes AUTH_FAILED and the socket is closed (state CLOSING, 2). *)
Definition onOpen (authenticated : bool) (c : Client.t) : Client.t * list Client.Effect :=
  let opened :=
    {| Client.ws := Some Client.OPEN; Client.status := Client.status c;
       Client.pendingRequests := Client.pendingRequests c;
       Client.nextRequestId := Client.nextRequestId c |} in
  let '(c1, effs1) := Client.setStatus Client.AUTHENTICATING opened in
  if authenticated then
    let '(c2, effs2) := Client.setStatus Client.CONNECTED c1 in
    (c2, (effs1 ++ effs2)%list)
  else
    let '(c2, effs2) := Client.setStatus Client.AUTH_FAILED c1 in
    ({| Client.ws := Some 2; Client.status := Client.status c2;
        Client.pendingRequests := Client.pendingRequests c2;
        Client.nextRequestId := Client.nextRequestId c2 |}, (effs1 ++ effs2)%list).

(** The things that happen to a client, one at a time: a call of
    [connect], the socket's open event with the result of authentication,
    a call of [sendRequest], an inbound message, the timer of a request,
    the close event of a socket (the current one or a replaced one), a call
    of [disconnect], the current socket reaching CLOSED. *)
Inductive ClientEvent :=
| EvConnect
| EvOpen (authenticated : bool)
| EvSend (signs : bool) (method : string)
| EvMessage (m : Client.Message)
| EvTimer (id : Z)
| EvClose
| EvDisconnect
| EvSocketClosed.

Definition clientStep (e : ClientEvent) (c : Client.t) : Client.t * list Client.Effect :=
  match e with
  | EvConnect => connectBegin c
  | EvOpen authenticated => onOpen authenticated c
  | EvSend signs method =>
      let '(_, c', effs) := Client.sendRequest signs method c in (c', effs)
  | EvMessage m => Client.handleMessage m c
  | EvTimer id => Client.onTimer id c
  | EvClose => Client.onClose c
  | EvDisconnect => Client.disconnect c
  | EvSocketClosed => (Client.socketClosed c, [])
  end.

Fixpoint clientRun (es : list ClientEvent) (c : Client.t) : Client.t * list Client.Effect :=
  match es with
  | [] => (c, [])
  | e :: rest =>
      let '(c1, effs1) := clientStep e c in
      let '(c2, effs2) := clientRun rest c1 in
      (c2, (effs1 ++ effs2)%list)
  end.

(** An effect that settles the promise of request [id]. *)
Definition settles (id : Z) (e : Client.Effect) : bool :=
  match e with
  | Client.Resolve id' _ | Client.Reject id' _ => bool_decide (id' = id)
  | _ => false
  end.

(** How often request [id] is settled in a list of effects. *)
Definition settlements (id : Z) (effs : list Client.Effect) : nat :=
  length (List.filter (settles id) effs).

(** Every registered id was drawn from the counter. *)
Definition idsBelowCounter (c : Client.t) : Prop :=
  forall id, id ∈ Client.pendingRequests c -> id < Client.nextRequestId c.


(** ** Instances used in the worked examples *)

(** A canonicaliser for the examples: it accepts the 42-character strings
    that start with [0x] and returns them unchanged. Addresses written with
    decimal digits only are fixed points of the checksum encoding. *)
Definition exampleGetAddress (a : string) : option string :=
  if startsWith "0x" a && Nat.eqb (String.length a) 42 then Some a else None.

(** A signer for the examples: request id and timestamp are the clock
    value, the single signature is a constant. *)
Definition exampleCreateAppSessionMessage (t : Z) (d : AppSessionData)
  : option SignedMessage :=
  Some {| msg_req := {| req_id := t; req_method := "create_app_session";
                        req_params := d; req_timestamp := t |};
          msg_sig := ["0xserver"] |}.

Fixpoint replicate_string (n : nat) (c : string) : string :=
  match n with
  | O => EmptyString
  | S n' => c ++ replicate_string n' c
  end.

(** A signature of the expected shape: [0x] and 130 hex digits. *)
Definition hexSig (c : string) : string := "0x" ++ replicate_string 130 c.

Definition addrA : string := "0x1111111111111111111111111111111111111111".
Definition addrB : string := "0x2222222222222222222222222222222222222222".
Definition addrC : string := "0x3333333333333333333333333333333333333333".
Definition addrS : string := "0x9999999999999999999999999999999999999999".

Definition emptyWorld : World :=
  {| roomAppSessions := ∅; pendingAppSessions := ∅; wire := [] |}.

Definition exampleEnv (frames : list Frame) : RpcEnv :=
  {| clientInitialized := true;
     connectSucceeds := true;
     sessionKeyAddress := addrS;
     signingSucceeds := true;
     wsReadyState := Some 1;
     inbound := frames;
     now := 1700000000000 |}.

(** The pending session that a proposal for room [r1] and player A stores. *)
Definition proposedDefinition : AppDefinition :=
  {| protocol := "NitroRPC/0.4";
     participants := [addrA; addrS];
     weights := [0; 100];
     quorum := 100;
     challenge := 0;
     nonce := 1700000000000 |}.

Definition proposedData : AppSessionData :=
  {| definition := proposedDefinition;
     allocations := [ {| participant := addrA; asset := "usdc"; amount := "0" |} ];
     session_data := initialSessionData (exampleEnv []) addrS |}.

Definition proposedPending : Pending.t :=
  {| Pending.appSessionData := proposedData;
     Pending.appDefinition := proposedDefinition;
     Pending.participantA := addrA;
     Pending.serverAddress := addrS;
     Pending.requestToSign :=
       {| req_id := 1700000000000; req_method := "create_app_session";
          req_params := proposedData; req_timestamp := 1700000000000 |};
     Pending.nonce := 1700000000000;
     Pending.signatures := ∅;
     Pending.serverSignature := Some "0xserver" |}.

Definition proposedWorld : World :=
  {| roomAppSessions := ∅;
     pendingAppSessions := {[ "r1" := proposedPending ]};
     wire := [] |}.

(** Signature collection driven by a list of [(address, signature)] calls. *)
Fixpoint collect (getAddress : string -> option string) (roomId : string)
    (calls : list (string * jsval)) (w : World) : World :=
  match calls with
  | [] => w
  | (a, s) :: rest =>
      collect getAddress roomId rest (snd (addAppSessionSignature getAddress roomId a s w))
  end.

(** The signatures collected so far for a room, if it has a pending session. *)
Definition collected (roomId : string) (w : World) : option (gmap string string) :=
  Pending.signatures <$> pendingAppSessions w !! roomId.

(** Whether the canonical form of a caller's address is one of the listed
    participants. A call whose address is not an address throws before it
    stores anything, so it counts as harmless. *)
Definition signerAmong (getAddress : string -> option string) (parts : list string)
    (call : string * jsval) : bool :=
  match getAddress (fst call) with
  | Some fa => bool_decide (fa ∈ parts)
  | None => true
  end.

(** Whether every key of a signature map is one of the listed participants. *)
Definition keysAmong (parts : list string) (m : gmap string string) : bool :=
  bool_decide (dom m ⊆ list_to_set (C := gset string) parts).

(** Worlds reached from [proposedWorld] by signature collection: A alone,
    A and a stranger B, and A, B and a stranger C with a two-byte signature. *)
Definition sigOfA : string := hexSig "a".
Definition sigOfB : string := hexSig "b".

Definition signedOnceWorld : World :=
  collect exampleGetAddress "r1" [(addrA, JStr sigOfA)] proposedWorld.

Definition quorumPending : Pending.t :=
  Pending.with_signatures (<[addrB := sigOfB]> (<[addrA := sigOfA]> ∅)) proposedPending.

Definition quorumWorld : World :=
  collect exampleGetAddress "r1" [(addrA, JStr sigOfA); (addrB, JStr sigOfB)] proposedWorld.

Definition threeCalls : list (string * jsval) :=
  [(addrA, JStr sigOfA); (addrB, JStr sigOfB); (addrC, JStr "0xab")].

Definition overfullPending : Pending.t :=
  Pending.with_signatures
    (<[addrC := "0xab"]> (<[addrB := sigOfB]> (<[addrA := sigOfA]> ∅))) proposedPending.

(** An acknowledgment of the creation carrying the session id [S1]. *)
Definition ackCreated : Frame :=
  FRes 7 "create_app_session" {| app_session_id := Some "S1"; appSessionId_camel := None |}.

(** The active session stored once [quorumWorld] was acknowledged. *)
Definition activeSession : Active.t :=
  activate (exampleEnv []) quorumPending "S1" "0".

Definition activeWorld : World :=
  {| roomAppSessions := {[ "r1" := activeSession ]};
     pendingAppSessions := ∅;
     wire := [] |}.

(** A connected client with one request in flight. *)
Definition idleClient : Client.t :=
  {| Client.ws := Some Client.OPEN;
     Client.status := Client.CONNECTED;
     Client.pendingRequests := ∅;
     Client.nextRequestId := 1 |}.

Definition busyClient : Client.t :=
  snd (fst (Client.sendRequest true "get_channels" idleClient)).

(** Further example values: the pending session after A alone signed, an
    acknowledgment of the close, a 3 x 3 game with the player in the
    middle and an enemy to its left, and a manager with two rooms. *)
Definition signedOncePending : Pending.t :=
  Pending.with_signatures (<[addrA := sigOfA]> ∅) proposedPending.

Definition ackClosed : Frame :=
  FRes 8 "close_app_session" {| app_session_id := None; appSessionId_camel := None |}.

Definition createdWorld : World :=
  snd (createAppSessionWithSignatures (exampleEnv [ackCreated]) "r1" quorumWorld).

Definition closedWorld : World :=
  snd (closeAppSession exampleGetAddress (exampleEnv [ackClosed]) "r1" None activeWorld).

Definition examplePlayer : Game.Actor :=
  {| Game.hp := 30; Game.x := 1; Game.y := 1; Game.isPlayer := true;
     Game.damage := "d8+2"; Game.id := Some "player"; Game.eoa := Some addrA |}.

Definition exampleEnemy : Game.Actor :=
  {| Game.hp := 10; Game.x := 0; Game.y := 1; Game.isPlayer := false;
     Game.damage := "d4+1"; Game.id := Some "enemy_1"; Game.eoa := None |}.

Definition exampleGame : Game.State :=
  {| Game.map := [[0; 0; 0]; [0; 0; 0]; [0; 1; 0]];
     Game.actorList := [examplePlayer; exampleEnemy];
     Game.actorMap := <[(0, 1) := 1%nat]> (<[(1, 1) := 0%nat]> ∅);
     Game.player := Some 0%nat;
     Game.players := Some (Some addrA);
     Game.lastMove := None;
     Game.winner := None;
     Game.isGameOver := false;
     Game.gameTime := 0 |}.

Definition movedGame : Game.State :=
  match Game.moveActor 3 3 exampleGame "player" "UP" 5000 with
  | Game.Success g => g
  | _ => exampleGame
  end.

Definition exampleSockets (h : nat) : Rooms.Socket string :=
  {| Rooms.ws_id := if Nat.eqb h 0 then "roomA" else "roomB";
     Rooms.readyState := 1;
     Rooms.outbox := [] |}.

Definition emptyManager : Rooms.t string :=
  {| Rooms.rooms := ∅; Rooms.addressToRoom := ∅; Rooms.sockets := exampleSockets |}.

Definition twoRooms : Rooms.t string :=
  snd (Rooms.createRoom 1 5 (snd (Rooms.createRoom 0 5 emptyManager))).

Definition joinedManager : Rooms.t string :=
  snd (Rooms.joinRoom exampleGetAddress "roomA" addrA 0 twoRooms).

Definition roomB : Rooms.Room string :=
  {| Rooms.id := "roomB"; Rooms.host := None; Rooms.connections := ∅;
     Rooms.gameState := Rooms.SlotEmpty; Rooms.isReady := true;
     Rooms.createdAt := 5; Rooms.playereoa := None |}.

(** Calls made on behalf of the two participants of [proposedDefinition]
    only: both sign, A signs again, and one call carries no address. *)
Definition participantCalls : list (string * jsval) :=
  [(addrA, JStr sigOfA); (addrS, JStr sigOfB); (addrA, JStr "0xab");
   ("not-an-address", JStr sigOfA)].

(** A later caller: another clock value, and a client that is neither
    initialised nor able to connect. *)
Definition laterEnv : RpcEnv :=
  {| clientInitialized := false;
     connectSucceeds := false;
     sessionKeyAddress := addrS;
     signingSucceeds := false;
     wsReadyState := None;
     inbound := [];
     now := 1700000060000 |}.

(** A signer that always throws. *)
Definition failingCreateAppSessionMessage (t : Z) (d : AppSessionData)
  : option SignedMessage := None.

(** A manager whose only room carries the id of the example session,
    [r1], and is hosted by A. *)
Definition sessionSockets (h : nat) : Rooms.Socket string :=
  {| Rooms.ws_id := "r1"; Rooms.readyState := 1; Rooms.outbox := [] |}.

Definition sessionManager : Rooms.t string :=
  snd (Rooms.joinRoom exampleGetAddress "r1" addrA 0
         (snd (Rooms.createRoom 0 5
                 {| Rooms.rooms := ∅; Rooms.addressToRoom := ∅;
                    Rooms.sockets := sessionSockets |}))).

(** ** The properties as the specification words them, where the code
    differs *)

(** A call for a room that already has a pending session returns the
    stored proposal unchanged. *)
Definition second_call_returns_stored (getAddress : string -> option string)
    (createAppSessionMessage : Z -> AppSessionData -> option SignedMessage) : Prop :=
  forall env roomId a w p,
    pendingAppSessions w !! roomId = Some p ->
    generateAppSessionMessage getAddress createAppSessionMessage env roomId a w
    = (Returned {| prop_appSessionData := Pending.appSessionData p;
                   prop_appDefinition := Pending.appDefinition p;
                   prop_participants := [Pending.participantA p; Pending.serverAddress p];
                   prop_requestToSign := Pending.requestToSign p |}, w).

(** A string of the wrong length or without the [0x] prefix is rejected
    and the stores are as before. *)
Definition malformed_always_rejected (getAddress : string -> option string) : Prop :=
  forall roomId a s w,
    String.length s <> 132%nat \/ startsWith "0x" s = false ->
    fst (addAppSessionSignature getAddress roomId a (JStr s) w) <> Returned true
    /\ pendingAppSessions (snd (addAppSessionSignature getAddress roomId a (JStr s) w))
       = pendingAppSessions w.

(** The collected-signature map never outgrows the participant list. *)
Definition signatures_bounded_by_participants (getAddress : string -> option string) : Prop :=
  forall roomId calls w p p',
    pendingAppSessions w !! roomId = Some p ->
    (size (Pending.signatures p) <= length (participants (Pending.appDefinition p)))%nat ->
    pendingAppSessions (collect getAddress roomId calls w) !! roomId = Some p' ->
    (size (Pending.signatures p') <= length (participants (Pending.appDefinition p')))%nat.

(** On connection close every registered request is rejected at once. *)
Definition close_rejects_all_pending : Prop :=
  forall (c : Client.t) (id : Z),
    id ∈ Client.pendingRequests c ->
    existsb (Client.rejects id) (snd (Client.onClose c)) = true.

(** ** Properties *)

Ltac eff_unfold :=
  unfold bind, ret, throw, try_catch, formatAddress,
    getPendingSession, setPendingSession, deletePendingSession,
    getAppSession, setAppSession, deleteAppSession,
    getRPCClient, ensureConnected, checkSocket, sendAndAwait, ws_send in *.

Section Properties.

Variable getAddress : string -> option string.
Variable createAppSessionMessage : Z -> AppSessionData -> option SignedMessage.

Local Abbreviation generate := (generateAppSessionMessage getAddress createAppSessionMessage).
Local Abbreviation addSignature := (addAppSessionSignature getAddress).

(** A stored proposal is handed back as it is. *)
Lemma generate_reuses env roomId a fa w p :
  pendingAppSessions w !! roomId = Some p ->
  getAddress a = Some fa ->
  generate env roomId a w = (Returned (proposal_of p), w).
Proof.
  intros Hp Ha. unfold generateAppSessionMessage. eff_unfold.
  rewrite Ha. cbn. rewrite Hp. reflexivity.
Qed.

(** A successful call leaves a pending session whose proposal is the
    returned one. *)
Lemma generate_stores env roomId a w r w1 :
  generate env roomId a w = (Returned r, w1) ->
  exists p, pendingAppSessions w1 !! roomId = Some p /\ proposal_of p = r.
Proof.
  unfold generateAppSessionMessage. eff_unfold.
  destruct (getAddress a) as [fa|] eqn:Ha; cbn; [|discriminate].
  destruct (pendingAppSessions w !! roomId) as [p|] eqn:Hp.
  - intros [= <- <-]. eauto.
  - destruct (clientInitialized env); cbn; [|discriminate].
    destruct (connectSucceeds env); cbn; [|discriminate].
    destruct (getAddress (sessionKeyAddress env)) as [srv|]; cbn; [|discriminate].
    destruct (createAppSessionMessage _ _) as [pm|]; cbn; [|discriminate].
    intros [= <- <-]. cbn. rewrite lookup_insert_eq.
    eexists. split; [reflexivity|]. reflexivity.
Qed.

(** Calling twice in a row yields the same proposal, whatever the second
    caller's clock and connection look like. *)
Lemma generate_twice env env' roomId a a' fa' w r w1 :
  generate env roomId a w = (Returned r, w1) ->
  getAddress a' = Some fa' ->
  generate env' roomId a' w1 = (Returned r, w1).
Proof.
  intros Hgen Ha'.
  destruct (generate_stores _ _ _ _ _ _ Hgen) as (p & Hp & <-).
  eapply generate_reuses; eauto.
Qed.


(** *** Signature collection *)

(** What a call does when it gets as far as storing the signature. *)
Lemma addSignature_stores roomId a fa s w p :
  pendingAppSessions w !! roomId = Some p ->
  getAddress a = Some fa ->
  startsWith "0x" s = true ->
  addSignature roomId a (JStr s) w =
    (Returned (Nat.eqb (size (<[fa := s]> (Pending.signatures p))) 2),
     {| roomAppSessions := roomAppSessions w;
        pendingAppSessions :=
          <[roomId := Pending.with_signatures (<[fa := s]> (Pending.signatures p)) p]>
            (pendingAppSessions w);
        wire := wire w |}).
Proof.
  intros Hp Ha Hs. unfold addAppSessionSignature. eff_unfold.
  rewrite Hp, Ha. cbn.
  assert (String.eqb s EmptyString = false) as ->.
  { destruct s; [discriminate Hs | reflexivity]. }
  cbn. rewrite Hs. reflexivity.
Qed.

(** A call either leaves the world as it was or stores exactly one
    signature under one key of the room's pending session. *)
Lemma addSignature_cases roomId a v w :
  snd (addSignature roomId a v w) = w
  \/ exists p fa s,
       pendingAppSessions w !! roomId = Some p
       /\ snd (addSignature roomId a v w) =
            {| roomAppSessions := roomAppSessions w;
               pendingAppSessions :=
                 <[roomId := Pending.with_signatures (<[fa := s]> (Pending.signatures p)) p]>
                   (pendingAppSessions w);
               wire := wire w |}.
Proof.
  unfold addAppSessionSignature. eff_unfold.
  destruct (pendingAppSessions w !! roomId) as [p|] eqn:Hp; cbn; [|by left].
  destruct (getAddress a) as [fa|]; cbn; [|by left].
  destruct v as [| | b | n | s]; cbn; try (by left).
  - destruct b; cbn; by left.
  - destruct (negb (n =? 0)); cbn; by left.
  - destruct (negb (String.eqb s EmptyString)); cbn; [|by left].
    destruct (startsWith "0x" s); cbn; [|by left].
    right. exists p, fa, s. split; reflexivity.
Qed.

(** The same, with the key: a signature is stored under the canonical form
    of the caller's address. *)
Lemma addSignature_signer roomId a v w :
  snd (addSignature roomId a v w) = w
  \/ exists p fa s,
       pendingAppSessions w !! roomId = Some p
       /\ getAddress a = Some fa
       /\ snd (addSignature roomId a v w) =
            {| roomAppSessions := roomAppSessions w;
               pendingAppSessions :=
                 <[roomId := Pending.with_signatures (<[fa := s]> (Pending.signatures p)) p]>
                   (pendingAppSessions w);
               wire := wire w |}.
Proof.
  unfold addAppSessionSignature. eff_unfold.
  destruct (pendingAppSessions w !! roomId) as [p|] eqn:Hp; cbn; [|by left].
  destruct (getAddress a) as [fa|] eqn:Ha; cbn; [|by left].
  destruct v as [| | b | n | s]; cbn; try (by left).
  - destruct b; cbn; by left.
  - destruct (negb (n =? 0)); cbn; by left.
  - destruct (negb (String.eqb s EmptyString)); cbn; [|by left].
    destruct (startsWith "0x" s); cbn; [|by left].
    right. exists p, fa, s. split; [reflexivity|]. split; reflexivity.
Qed.

(** C4, as the code has it. A signature that is not a string, is empty, or
    does not start with [0x] is rejected: the world (and with it the
    collected-signature map) is unchanged and the call does not report
    quorum. The length is not part of the check: a [0x]-prefixed string of
    any length is stored under the canonical address. *)
Theorem signature_shape_check roomId a w :
  (forall v,
      (forall s, v = JStr s -> startsWith "0x" s = false) ->
      snd (addSignature roomId a v w) = w
      /\ fst (addSignature roomId a v w) <> Returned true)
  /\ (forall p fa s,
        pendingAppSessions w !! roomId = Some p ->
        getAddress a = Some fa ->
        startsWith "0x" s = true ->
        collected roomId (snd (addSignature roomId a (JStr s) w))
        = Some (<[fa := s]> (Pending.signatures p))).
Proof.
  split.
  - intros v Hv. unfold addAppSessionSignature. eff_unfold.
    destruct (pendingAppSessions w !! roomId) as [p|]; cbn; [|split; [done|discriminate]].
    destruct (getAddress a) as [fa|]; cbn; [|split; [done|discriminate]].
    destruct v as [| | b | n | s]; cbn; try (split; [done|discriminate]).
    + destruct b; cbn; split; (done || discriminate).
    + destruct (negb (n =? 0)); cbn; split; (done || discriminate).
    + rewrite (Hv s eq_refl).
      destruct (negb (String.eqb s EmptyString)); cbn; split; (done || discriminate).
  - intros p fa s Hp Ha Hs.
    rewrite (addSignature_stores roomId a fa s w p Hp Ha Hs).
    unfold collected. cbn. rewrite lookup_insert_eq. reflexivity.
Qed.

(** Signature collection never touches the proposal of a pending session,
    and a room with a pending session keeps one. *)
Lemma addSignature_keeps_proposal roomId a v w p :
  pendingAppSessions w !! roomId = Some p ->
  exists p',
    pendingAppSessions (snd (addSignature roomId a v w)) !! roomId = Some p'
    /\ Pending.appDefinition p' = Pending.appDefinition p
    /\ Pending.participantA p' = Pending.participantA p
    /\ Pending.serverAddress p' = Pending.serverAddress p
    /\ (size (Pending.signatures p') <= S (size (Pending.signatures p)))%nat.
Proof.
  intros Hp.
  destruct (addSignature_cases roomId a v w) as [-> | (q & fa & s & Hq & ->)].
  - exists p. repeat split; try done. lia.
  - rewrite Hp in Hq. injection Hq as <-. cbn. rewrite lookup_insert_eq.
    eexists. split; [reflexivity|]. cbn. repeat split.
    rewrite map_size_insert. destruct (Pending.signatures p !! fa); cbn; lia.
Qed.

(** Over any sequence of calls the collected-signature map grows by at
    most one entry per call, and the definition stays as proposed. *)
Lemma collect_grows_by_calls roomId calls w p :
  pendingAppSessions w !! roomId = Some p ->
  exists p',
    pendingAppSessions (collect getAddress roomId calls w) !! roomId = Some p'
    /\ Pending.appDefinition p' = Pending.appDefinition p
    /\ (size (Pending.signatures p') <= size (Pending.signatures p) + length calls)%nat.
Proof.
  revert w p. induction calls as [|[a v] calls IH]; intros w p Hp; cbn [collect].
  - exists p. repeat split; try done. cbn. lia.
  - destruct (addSignature_keeps_proposal roomId a v w p Hp)
      as (q & Hq & Hdef & _ & _ & Hsz).
    destruct (IH _ q Hq) as (p' & Hp' & Hdef' & Hsz').
    exists p'. split; [exact Hp'|]. split; [congruence|]. cbn [length]. lia.
Qed.

(** A map whose keys are among the listed participants has no more entries
    than the list has elements. *)
Lemma keysAmong_size parts (m : gmap string string) :
  keysAmong parts m = true -> (size m <= length parts)%nat.
Proof.
  unfold keysAmong. intros Hk%bool_decide_eq_true_1.
  rewrite <- size_dom.
  etrans; [apply subseteq_size, Hk|].
  clear. induction parts as [|x l IH]; cbn [list_to_set length].
  - rewrite size_empty. lia.
  - rewrite size_union_alt, size_singleton.
    pose proof (subseteq_size (list_to_set (C := gset string) l ∖ {[x]}) (list_to_set l))
      as Hsub.
    assert (list_to_set (C := gset string) l ∖ {[x]} ⊆ list_to_set l) as Hd
      by (intros y [Hy _]%elem_of_difference; exact Hy).
    specialize (Hsub Hd). lia.
Qed.

(** A call made for a participant keeps the keys among the participants. *)
Lemma addSignature_keeps_keys parts roomId a v w p :
  pendingAppSessions w !! roomId = Some p ->
  keysAmong parts (Pending.signatures p) = true ->
  signerAmong getAddress parts (a, v) = true ->
  exists p',
    pendingAppSessions (snd (addSignature roomId a v w)) !! roomId = Some p'
    /\ keysAmong parts (Pending.signatures p') = true.
Proof.
  intros Hp Hk Hs.
  destruct (addSignature_signer roomId a v w) as [-> | (q & fa & s & Hq & Ha & ->)].
  - exists p. split; done.
  - rewrite Hp in Hq. injection Hq as <-. cbn. rewrite lookup_insert_eq.
    eexists. split; [reflexivity|]. cbn.
    unfold signerAmong in Hs. cbn in Hs. rewrite Ha in Hs.
    apply bool_decide_eq_true_1 in Hs.
    unfold keysAmong in *. apply bool_decide_eq_true_1 in Hk.
    apply bool_decide_eq_true_2. rewrite dom_insert.
    intros y [Hy%elem_of_singleton | Hy]%elem_of_union.
    + subst y. by apply elem_of_list_to_set.
    + by apply Hk.
Qed.

Lemma collect_keeps_keys parts roomId calls w p :
  pendingAppSessions w !! roomId = Some p ->
  keysAmong parts (Pending.signatures p) = true ->
  forallb (signerAmong getAddress parts) calls = true ->
  exists p',
    pendingAppSessions (collect getAddress roomId calls w) !! roomId = Some p'
    /\ keysAmong parts (Pending.signatures p') = true.
Proof.
  revert w p. induction calls as [|[a v] calls IH]; intros w p Hp Hk Hs; cbn [collect].
  - exists p. split; done.
  - cbn [forallb] in Hs. apply andb_true_iff in Hs as [Hs Hrest].
    destruct (addSignature_keeps_keys parts roomId a v w p Hp Hk Hs) as (q & Hq & Hkq).
    exact (IH _ q Hq Hkq Hrest).
Qed.

(** C5, as the code has it. Over any sequence of calls, from any callers
    and with any addresses and signatures, the definition and its
    participant list stay as proposed and the collected-signature map
    grows by at most one entry per call. When the map's keys start among
    the participants and every call whose address is an address is made
    for a participant, the map never has more entries than the definition
    has participants. The code does not examine membership: a well-formed
    signature sent for an address that has not signed yet, participant or
    not, adds one entry, whatever the size of the map. *)
Theorem collected_bounded_by_participants roomId calls w p :
  pendingAppSessions w !! roomId = Some p ->
  (exists p',
      pendingAppSessions (collect getAddress roomId calls w) !! roomId = Some p'
      /\ Pending.appDefinition p' = Pending.appDefinition p
      /\ (size (Pending.signatures p') <= size (Pending.signatures p) + length calls)%nat
      /\ (keysAmong (participants (Pending.appDefinition p)) (Pending.signatures p) = true ->
          forallb (signerAmong getAddress (participants (Pending.appDefinition p))) calls
          = true ->
          (size (Pending.signatures p')
           <= length (participants (Pending.appDefinition p')))%nat))
  /\ (forall a fa s,
        getAddress a = Some fa ->
        startsWith "0x" s = true ->
        Pending.signatures p !! fa = None ->
        size <$> collected roomId (snd (addAppSessionSignature getAddress roomId a (JStr s) w))
        = Some (S (size (Pending.signatures p)))).
Proof.
  intros Hp. split.
  - destruct (collect_grows_by_calls roomId calls w p Hp) as (p' & Hp' & Hdef & Hsz).
    exists p'. split; [exact Hp'|]. split; [exact Hdef|]. split; [exact Hsz|].
    intros Hk Hs.
    destruct (collect_keeps_keys _ roomId calls w p Hp Hk Hs) as (q & Hq & Hkq).
    rewrite Hp' in Hq. injection Hq as <-.
    rewrite Hdef. by apply keysAmong_size.
  - intros a fa s Ha Hs Hnone.
    rewrite (addSignature_stores roomId a fa s w p Hp Ha Hs).
    unfold collected. cbn. rewrite lookup_insert_eq. cbn.
    by rewrite map_size_insert_None.
Qed.

(** The shape of a freshly generated pending session. *)
Lemma generate_fresh env roomId a w r w1 :
  pendingAppSessions w !! roomId = None ->
  generate env roomId a w = (Returned r, w1) ->
  exists p,
    w1 = {| roomAppSessions := roomAppSessions w;
            pendingAppSessions := <[roomId := p]> (pendingAppSessions w);
            wire := wire w |}
    /\ proposal_of p = r
    /\ getAddress a = Some (Pending.participantA p)
    /\ Pending.signatures p = ∅
    /\ participants (Pending.appDefinition p)
       = [Pending.participantA p; Pending.serverAddress p]
    /\ weights (Pending.appDefinition p) = [0; 100]
    /\ allocations (Pending.appSessionData p)
       = [ {| participant := Pending.participantA p; asset := "usdc"; amount := "0" |} ].
Proof.
  intros Hp. unfold generateAppSessionMessage. eff_unfold.
  destruct (getAddress a) as [fa|] eqn:Ha; cbn; [|discriminate].
  rewrite Hp.
  destruct (clientInitialized env); cbn; [|discriminate].
  destruct (connectSucceeds env); cbn; [|discriminate].
  destruct (getAddress (sessionKeyAddress env)) as [srv|]; cbn; [|discriminate].
  destruct (createAppSessionMessage _ _) as [pm|]; cbn; [|discriminate].
  intros [= <- <-]. eexists. split; [reflexivity|]. cbn. repeat split.
Qed.

(** Assembly is refused while the map does not hold exactly two entries. *)
Lemma create_refused env roomId w p :
  pendingAppSessions w !! roomId = Some p ->
  size (Pending.signatures p) <> 2%nat ->
  createAppSessionWithSignatures env roomId w
  = (Thrown (NotAllSignatures (size (Pending.signatures p))), w).
Proof.
  intros Hp Hsz. unfold createAppSessionWithSignatures. eff_unfold.
  rewrite Hp. apply Nat.eqb_neq in Hsz. rewrite Hsz. reflexivity.
Qed.

(** C1, where the code departs from it. For a proposal freshly built by
    [generateAppSessionMessage] the participant list has two entries, so one
    player signature is required. Once the player's well-formed signature is
    stored, that one signature is present, yet [addAppSessionSignature]
    answers false and [createAppSessionWithSignatures] refuses with
    "have 1/2": both compare the map size with the constant 2. *)
Theorem quorum_gate_is_constant_two env env' roomId a w r w1 s :
  pendingAppSessions w !! roomId = None ->
  generate env roomId a w = (Returned r, w1) ->
  startsWith "0x" s = true ->
  exists w2 p,
    addSignature roomId a (JStr s) w1 = (Returned false, w2)
    /\ pendingAppSessions w2 !! roomId = Some p
    /\ size (Pending.signatures p) = 1%nat
    /\ (length (participants (Pending.appDefinition p)) - 1)%nat = 1%nat
    /\ createAppSessionWithSignatures env' roomId w2 = (Thrown (NotAllSignatures 1), w2).
Proof.
  intros Hp Hgen Hs.
  destruct (generate_fresh _ _ _ _ _ _ Hp Hgen)
    as (p & -> & _ & Ha & Hsigs & Hparts & _ & _).
  assert (Hlook : pendingAppSessions
            {| roomAppSessions := roomAppSessions w;
               pendingAppSessions := <[roomId := p]> (pendingAppSessions w);
               wire := wire w |} !! roomId = Some p)
    by (cbn; apply lookup_insert_eq).
  rewrite (addSignature_stores roomId a _ s _ p Hlook Ha Hs).
  rewrite Hsigs, insert_empty, map_size_singleton. cbn [Nat.eqb].
  set (p1 := Pending.with_signatures {[Pending.participantA p := s]} p).
  assert (Hsz1 : size (Pending.signatures p1) = 1%nat) by apply map_size_singleton.
  eexists. exists p1. split; [reflexivity|].
  split; [cbn; apply lookup_insert_eq|].
  split; [exact Hsz1|].
  split; [cbn; rewrite Hparts; reflexivity|].
  rewrite <- Hsz1. apply create_refused.
  - cbn. apply lookup_insert_eq.
  - rewrite Hsz1. discriminate.
Qed.

(** What the awaited outcome does to a world that passed all the checks. *)
Lemma create_cases env roomId w :
  let res := createAppSessionWithSignatures env roomId w in
  (fst res = Thrown (NoPendingSession roomId) /\ snd res = w)
  \/ (exists p,
        pendingAppSessions w !! roomId = Some p
        /\ ((exists e, fst res = Thrown e /\ snd res = w)
            \/ (exists e, fst res = Thrown e
                 /\ snd res = {| roomAppSessions := roomAppSessions w;
                                 pendingAppSessions := pendingAppSessions w;
                                 wire := wire w ++ [WCreate (assembleRequest p)] |})
            \/ (exists id resp s0,
                  fst res = Returned id
                  /\ awaitByMethod "create_app_session" (inbound env) = Returned resp
                  /\ size (Pending.signatures p) = 2%nat
                  /\ snd res =
                      {| roomAppSessions := <[roomId := s0]> (roomAppSessions w);
                         pendingAppSessions := delete roomId (pendingAppSessions w);
                         wire := wire w ++ [WCreate (assembleRequest p)] |}))).
Proof.
  unfold createAppSessionWithSignatures. eff_unfold. cbn.
  destruct (pendingAppSessions w !! roomId) as [p|] eqn:Hp; cbn; [|by left].
  right. exists p. split; [reflexivity|].
  destruct (Nat.eqb (size (Pending.signatures p)) 2) eqn:Hsz; cbn; [|left; eauto].
  apply Nat.eqb_eq in Hsz.
  destruct (clientInitialized env); cbn; [|left; eauto].
  destruct (connectSucceeds env); cbn; [|left; eauto].
  destruct (wsReadyState env) as [st|]; cbn; [|left; eauto].
  destruct (st =? 1); cbn; [|left; eauto].
  destruct (awaitByMethod "create_app_session" (inbound env)) as [resp|e] eqn:Haw; cbn;
    [|right; left; eauto].
  destruct (js_or (app_session_id resp) (appSessionId_camel resp)) as [id|] eqn:Hid; cbn;
    [|right; left; eauto].
  destruct (negb (String.eqb id EmptyString)); cbn; [|right; left; eauto].
  destruct (head (allocations (Pending.appSessionData p))) as [a0|]; cbn;
    [|right; left; eauto].
  right. right. eauto 10.
Qed.

(** The outcome of an assembly attempt depends on the world only through
    the room's pending session. *)
Lemma create_outcome_ext env roomId w w' :
  pendingAppSessions w !! roomId = pendingAppSessions w' !! roomId ->
  fst (createAppSessionWithSignatures env roomId w)
  = fst (createAppSessionWithSignatures env roomId w').
Proof.
  intros Heq. unfold createAppSessionWithSignatures. eff_unfold. cbn. rewrite <- Heq.
  destruct (pendingAppSessions w !! roomId) as [p|]; cbn; [|reflexivity].
  destruct (Nat.eqb (size (Pending.signatures p)) 2); cbn; [|reflexivity].
  destruct (clientInitialized env); cbn; [|reflexivity].
  destruct (connectSucceeds env); cbn; [|reflexivity].
  destruct (wsReadyState env) as [st|]; cbn; [|reflexivity].
  destruct (st =? 1); cbn; [|reflexivity].
  destruct (awaitByMethod "create_app_session" (inbound env)) as [resp|e]; cbn;
    [|reflexivity].
  destruct (js_or (app_session_id resp) (appSessionId_camel resp)) as [id|]; cbn;
    [|reflexivity].
  destruct (negb (String.eqb id EmptyString)); cbn; [|reflexivity].
  destruct (head (allocations (Pending.appSessionData p))) as [a0|]; cbn; reflexivity.
Qed.

(** When every local check passes, a failed wait is the failure of the call. *)
Lemma create_await_failure env roomId w p e :
  pendingAppSessions w !! roomId = Some p ->
  size (Pending.signatures p) = 2%nat ->
  clientInitialized env = true ->
  connectSucceeds env = true ->
  wsReadyState env = Some 1 ->
  awaitByMethod "create_app_session" (inbound env) = Thrown e ->
  createAppSessionWithSignatures env roomId w
  = (Thrown e,
     {| roomAppSessions := roomAppSessions w;
        pendingAppSessions := pendingAppSessions w;
        wire := wire w ++ [WCreate (assembleRequest p)] |}).
Proof.
  intros Hp Hsz Hc Hk Hws Haw. unfold createAppSessionWithSignatures. eff_unfold. cbn.
  rewrite Hp, Hsz, Hc. cbn. rewrite Hk. cbn. rewrite Hws. cbn. rewrite Haw. reflexivity.
Qed.

(** C7. Whenever [createAppSessionWithSignatures] fails, and it does fail
    when the wait for the acknowledgment ends in the 30 s timeout or in an
    error frame, both stores are exactly as before: the pending session
    with its signatures and nonce is still there, and a retry behaves as the
    first attempt would have. The pending entry is deleted only together
    with a returned session id, which needs an acknowledgment. *)
Theorem create_failure_keeps_pending env roomId w :
  let res := createAppSessionWithSignatures env roomId w in
  (forall e, awaitByMethod "create_app_session" (inbound env) = Thrown e ->
             exists e', fst res = Thrown e')
  /\ (forall e, fst res = Thrown e ->
        pendingAppSessions (snd res) = pendingAppSessions w
        /\ roomAppSessions (snd res) = roomAppSessions w
        /\ forall env2,
             fst (createAppSessionWithSignatures env2 roomId (snd res))
             = fst (createAppSessionWithSignatures env2 roomId w))
  /\ (forall id, fst res = Returned id ->
        pendingAppSessions (snd res) = delete roomId (pendingAppSessions w)
        /\ exists resp,
             awaitByMethod "create_app_session" (inbound env) = Returned resp).
Proof.
  intros res. subst res.
  destruct (create_cases env roomId w)
    as [[Hf Hs] | (p & Hp & [(e0 & Hf & Hs) | [(e0 & Hf & Hs) | (id0 & resp & s0 & Hf & Haw & Hsz & Hs)]])];
    rewrite Hf, Hs; cbn [pendingAppSessions roomAppSessions wire].
  - split; [eauto|]. split; [|intros ? [=]].
    intros _ _. repeat split.
  - split; [eauto|]. split; [|intros ? [=]].
    intros _ _. repeat split.
  - split; [eauto|]. split; [|intros ? [=]].
    intros _ _. split; [reflexivity|]. split; [reflexivity|].
    intros env2. apply create_outcome_ext. reflexivity.
  - split; [intros e He; congruence|]. split; [intros ? [=]|].
    intros _ _. split; [reflexivity|eauto].
Qed.

(** C3, where the code departs from it. Whatever was collected, the
    envelope written to the socket carries three signature slots: the
    entry stored under the first player, a slot read under the absent
    property [participantB], which is always [undefined], and the service
    signature. For a definition with the two participants that
    [generateAppSessionMessage] lists, this is one slot more than there are
    participants, and a collected signature of any other signer is left out. *)
Theorem assembled_envelope_shape env roomId w p :
  pendingAppSessions w !! roomId = Some p ->
  participants (Pending.appDefinition p)
  = [Pending.participantA p; Pending.serverAddress p] ->
  let res := createAppSessionWithSignatures env roomId w in
  sig (assembleRequest p)
  = [Pending.signatures p !! Pending.participantA p; None; Pending.serverSignature p]
  /\ length (sig (assembleRequest p)) = S (length (participants (Pending.appDefinition p)))
  /\ (wire (snd res) = wire w
      \/ wire (snd res) = (wire w ++ [WCreate (assembleRequest p)])%list)
  /\ (forall id, fst res = Returned id ->
        wire (snd res) = (wire w ++ [WCreate (assembleRequest p)])%list).
Proof.
  intros Hp Hparts res. subst res.
  split; [reflexivity|]. split; [rewrite Hparts; reflexivity|].
  destruct (create_cases env roomId w)
    as [[Hf Hs] | (q & Hq & [(e0 & Hf & Hs) | [(e0 & Hf & Hs) | (id0 & resp & s0 & Hf & Haw & Hsz & Hs)]])];
    rewrite Hf, Hs; cbn; try (rewrite Hp in Hq; injection Hq as <-).
  - split; [by left|intros ? [=]].
  - split; [by left|intros ? [=]].
  - split; [by right|intros ? [=]].
  - split; [by right|reflexivity].
Qed.

(** *** Closing *)

(** C10. Without a stored active session for the room, [closeAppSession]
    returns normally and the world is unchanged: no store is touched and
    nothing is written to the socket. *)
Theorem close_without_session_is_noop env roomId winnerEOA w :
  roomAppSessions w !! roomId = None ->
  closeAppSession getAddress env roomId winnerEOA w = (Returned tt, w).
Proof.
  intros Hs. unfold closeAppSession. eff_unfold. rewrite Hs. reflexivity.
Qed.

(** The part of [closeAppSession] after the allocations are fixed. *)
Ltac close_tail env :=
  destruct (signingSucceeds env); cbn; [|left; eauto];
  destruct (wsReadyState env) as [[| [| |] |]|]; cbn; try (left; eauto; fail);
  right; eexists; split; [|split]; [| |
    destruct (awaitByMethod "close_app_session" (inbound env)); cbn;
    [right; split; reflexivity | left; eexists; split; reflexivity]];
  reflexivity.

(** Every way a close of a stored session can go. *)
Lemma close_cases env roomId winnerEOA w session :
  roomAppSessions w !! roomId = Some session ->
  let res := closeAppSession getAddress env roomId winnerEOA w in
  (exists e, fst res = Thrown e /\ snd res = w)
  \/ (exists cd,
        close_allocations cd = []
        /\ close_app_session_id cd = Active.appSessionId session
        /\ ((exists e, fst res = Thrown e
                       /\ snd res = {| roomAppSessions := roomAppSessions w;
                                       pendingAppSessions := pendingAppSessions w;
                                       wire := wire w ++ [WClose cd] |})
            \/ (fst res = Returned tt
                /\ snd res = {| roomAppSessions := delete roomId (roomAppSessions w);
                               pendingAppSessions := pendingAppSessions w;
                               wire := wire w ++ [WClose cd] |}))).
Proof.
  intros Hs. unfold closeAppSession, payout, closeAllocations. eff_unfold. cbn.
  rewrite Hs. cbn.
  destruct (clientInitialized env); cbn; [|left; eauto].
  destruct (connectSucceeds env); cbn; [|left; eauto].
  destruct winnerEOA as [a|]; cbn.
  - destruct (negb (String.eqb a EmptyString)); cbn.
    + destruct (getAddress a) as [fa|]; cbn; [|left; eauto].
      destruct (negb (String.eqb fa EmptyString)); cbn.
      * destruct (bool_decide (Some fa = Some (Active.participantA session))); cbn;
          [left; eauto|].
        destruct (bool_decide (Some fa = Active.participantB session)); cbn;
          [left; eauto|].
        close_tail env.
      * close_tail env.
    + close_tail env.
  - close_tail env.
Qed.

(** C2, where the code departs from it. Whatever the outcome, a close
    message that reaches the socket carries an empty allocation vector:
    neither the winner nor, on a tie, any contributor is listed. And when
    the winner is the session's first player, building the final session
    data reads the unbound [totalPot]: the call throws before any allocation
    is fixed, nothing is sent and the session stays stored. *)
Theorem close_allocations_are_empty env roomId winnerEOA w session :
  roomAppSessions w !! roomId = Some session ->
  let res := closeAppSession getAddress env roomId winnerEOA w in
  (forall m, m ∈ wire (snd res) ->
             m ∈ wire w \/ exists cd, m = WClose cd /\ close_allocations cd = [])
  /\ (forall a,
        winnerEOA = Some a ->
        a <> EmptyString ->
        getAddress a = Some (Active.participantA session) ->
        Active.participantA session <> EmptyString ->
        clientInitialized env = true ->
        connectSucceeds env = true ->
        res = (Thrown (ReferenceError "totalPot"), w)).
Proof.
  intros Hs res. split.
  - subst res. intros m.
    destruct (close_cases env roomId winnerEOA w session Hs)
      as [(e & _ & ->) | (cd & Hal & _ & [(e & _ & ->) | (_ & ->)])]; cbn.
    + by left.
    + rewrite elem_of_app, list_elem_of_singleton. intros [?| ->]; [by left|right; eauto].
    + rewrite elem_of_app, list_elem_of_singleton. intros [?| ->]; [by left|right; eauto].
  - subst res. intros a -> Ha Hga HA Hc Hk.
    unfold closeAppSession, payout. eff_unfold. cbn. rewrite Hs. cbn.
    rewrite Hc. cbn. rewrite Hk. cbn.
    apply String.eqb_neq in Ha. rewrite Ha. cbn. rewrite Hga. cbn.
    apply String.eqb_neq in HA. rewrite HA. cbn.
    rewrite bool_decide_eq_true_2 by reflexivity. reflexivity.
Qed.

(** *** Checkpointing *)

(** C8. [submitAppState] always returns normally, whatever the client,
    the connection and the ledger do (missing client, failed reconnect,
    failed signing, socket not open, error frame, 30 s timeout), and both
    session stores are as before. *)
Theorem submitAppState_never_throws env roomId gameTime w :
  exists w',
    submitAppState env roomId gameTime w = (Returned tt, w')
    /\ roomAppSessions w' = roomAppSessions w
    /\ pendingAppSessions w' = pendingAppSessions w.
Proof.
  unfold submitAppState. eff_unfold. cbn.
  destruct (roomAppSessions w !! roomId) as [session|]; cbn; [|eauto].
  destruct (clientInitialized env); cbn; [|eauto].
  destruct (connectSucceeds env); cbn; [|eauto].
  destruct (signingSucceeds env); cbn; [|eauto].
  destruct (wsReadyState env) as [st|]; cbn; [|eauto].
  destruct (st =? 1); cbn; [|eauto].
  destruct (awaitByMethod "submit_app_state" (inbound env)); cbn; eauto.
Qed.

(** *** The request table on connection close *)

(** C9, as the code has it. The close listener only moves the status to
    DISCONNECTED: every registered request stays in the table and none is
    rejected by the listener. A request still registered is rejected, and
    removed, when its own 10 s timer fires. *)
Theorem close_leaves_requests_pending (c : Client.t) :
  Client.pendingRequests (fst (Client.onClose c)) = Client.pendingRequests c
  /\ Client.status (fst (Client.onClose c)) = Client.DISCONNECTED
  /\ (forall id, forallb (fun e => negb (Client.rejects id e)) (snd (Client.onClose c)) = true)
  /\ (forall id,
        id ∈ Client.pendingRequests c ->
        snd (Client.onTimer id (fst (Client.onClose c)))
        = [Client.Reject id "Request timeout"]
        /\ id ∉ Client.pendingRequests (fst (Client.onTimer id (fst (Client.onClose c))))).
Proof.
  unfold Client.onClose, Client.setStatus. cbn.
  destruct (bool_decide (Client.status c = Client.DISCONNECTED)) eqn:Hst; cbn.
  - apply bool_decide_eq_true_1 in Hst.
    repeat split; try done.
    + unfold Client.onTimer. cbn. rewrite bool_decide_eq_true_2 by done. reflexivity.
    + unfold Client.onTimer. cbn. rewrite bool_decide_eq_true_2 by done. cbn.
      apply not_elem_of_difference. right. by apply elem_of_singleton.
  - repeat split; try done.
    + unfold Client.onTimer. cbn. rewrite bool_decide_eq_true_2 by done. reflexivity.
    + unfold Client.onTimer. cbn. rewrite bool_decide_eq_true_2 by done. cbn.
      apply not_elem_of_difference. right. by apply elem_of_singleton.
Qed.

End Properties.

(** ** Worked examples *)

(** The example worlds are what the functions produce. *)
Example proposedWorld_generated :
  generateAppSessionMessage exampleGetAddress exampleCreateAppSessionMessage
    (exampleEnv []) "r1" addrA emptyWorld
  = (Returned (proposal_of proposedPending), proposedWorld).
Proof. vm_compute. reflexivity. Qed.

Example quorumWorld_pending :
  pendingAppSessions quorumWorld !! "r1" = Some quorumPending.
Proof. vm_compute. reflexivity. Qed.

Example activeWorld_created :
  let res := createAppSessionWithSignatures (exampleEnv [ackCreated]) "r1" quorumWorld in
  fst res = Returned "S1"
  /\ roomAppSessions (snd res) = roomAppSessions activeWorld
  /\ pendingAppSessions (snd res) = ∅.
Proof. vm_compute. repeat split. Qed.

(** The envelope sent for [quorumWorld]: A's signature, an [undefined]
    slot, the service signature; B's signature is not in it. *)
Example envelope_at_quorum :
  wire (snd (createAppSessionWithSignatures (exampleEnv [ackCreated]) "r1" quorumWorld))
  = [WCreate {| req := Pending.requestToSign proposedPending;
                sig := [Some sigOfA; None; Some "0xserver"] |}].
Proof. vm_compute. reflexivity. Qed.

(** One signature in, as many as the proposal has players, and no quorum. *)
Lemma quorum_gate_witness :
  pendingAppSessions emptyWorld !! "r1" = None
  /\ startsWith "0x" sigOfA = true
  /\ exists w2 p,
       addAppSessionSignature exampleGetAddress "r1" addrA (JStr sigOfA) proposedWorld
       = (Returned false, w2)
       /\ pendingAppSessions w2 !! "r1" = Some p
       /\ size (Pending.signatures p) = 1%nat
       /\ (length (participants (Pending.appDefinition p)) - 1)%nat = 1%nat
       /\ createAppSessionWithSignatures (exampleEnv [ackCreated]) "r1" w2
          = (Thrown (NotAllSignatures 1), w2).
Proof.
  split; [reflexivity|]. split; [reflexivity|].
  apply (quorum_gate_is_constant_two exampleGetAddress exampleCreateAppSessionMessage
           (exampleEnv []) (exampleEnv [ackCreated]) "r1" addrA emptyWorld
           (proposal_of proposedPending) proposedWorld sigOfA).
  - reflexivity.
  - vm_compute. reflexivity.
  - reflexivity.
Defined.

Lemma assembled_envelope_witness :
  pendingAppSessions quorumWorld !! "r1" = Some quorumPending
  /\ participants (Pending.appDefinition quorumPending)
     = [Pending.participantA quorumPending; Pending.serverAddress quorumPending]
  /\ let res := createAppSessionWithSignatures (exampleEnv [ackCreated]) "r1" quorumWorld in
     sig (assembleRequest quorumPending)
     = [Pending.signatures quorumPending !! Pending.participantA quorumPending; None;
        Pending.serverSignature quorumPending]
     /\ length (sig (assembleRequest quorumPending))
        = S (length (participants (Pending.appDefinition quorumPending)))
     /\ (wire (snd res) = wire quorumWorld
         \/ wire (snd res) = (wire quorumWorld ++ [WCreate (assembleRequest quorumPending)])%list)
     /\ (forall id, fst res = Returned id ->
           wire (snd res) = (wire quorumWorld ++ [WCreate (assembleRequest quorumPending)])%list).
Proof.
  assert (Hp : pendingAppSessions quorumWorld !! "r1" = Some quorumPending)
    by (vm_compute; reflexivity).
  split; [exact Hp|]. split; [reflexivity|].
  exact (assembled_envelope_shape (exampleEnv [ackCreated]) "r1" quorumWorld
           quorumPending Hp eq_refl).
Defined.

Lemma close_allocations_witness :
  roomAppSessions activeWorld !! "r1" = Some activeSession
  /\ closeAppSession exampleGetAddress (exampleEnv []) "r1" (Some addrA) activeWorld
     = (Thrown (ReferenceError "totalPot"), activeWorld)
  /\ forall m,
       m ∈ wire (snd (closeAppSession exampleGetAddress (exampleEnv []) "r1" None activeWorld)) ->
       m ∈ wire activeWorld \/ exists cd, m = WClose cd /\ close_allocations cd = [].
Proof.
  assert (Hs : roomAppSessions activeWorld !! "r1" = Some activeSession)
    by (vm_compute; reflexivity).
  split; [exact Hs|]. split.
  - apply (proj2 (close_allocations_are_empty exampleGetAddress (exampleEnv []) "r1"
                    (Some addrA) activeWorld activeSession Hs) addrA);
      try reflexivity; discriminate.
  - apply (proj1 (close_allocations_are_empty exampleGetAddress (exampleEnv []) "r1"
                    None activeWorld activeSession Hs)).
Defined.

(** On a tie the close message goes out with no allocation at all. *)
Example close_on_tie_sends_nothing_back :
  wire (snd (closeAppSession exampleGetAddress (exampleEnv []) "r1" None activeWorld))
  = [WClose {| close_app_session_id := "S1";
               close_allocations := [];
               close_session_data :=
                 {| gameType := "viper_duel";
                    sd_betAmount := "0";
                    sd_feeHistory :=
                      Active.feeHistory activeSession ++
                      [ {| event := "game_ended"; timestamp := 1700000000000;
                           fee_serverAddress := addrS; feeCharged := None;
                           feeUsed := None; fee_winner := None |} ];
                    startTime := 1700000000000;
                    gameState := "closed";
                    sd_winner := None;
                    sd_payouts := [(Some addrA, "0"); (None, "0")];
                    sd_gameTime := 0;
                    sd_moves := [];
                    totalMoves := 0;
                    sd_serverAddress := addrS |} |}].
Proof. vm_compute. reflexivity. Qed.

(** A signature without the prefix changes nothing; a two-byte one with
    the prefix is stored. *)
Lemma signature_shape_witness :
  snd (addAppSessionSignature exampleGetAddress "r1" addrA (JStr "abcd") proposedWorld)
  = proposedWorld
  /\ collected "r1"
       (snd (addAppSessionSignature exampleGetAddress "r1" addrA (JStr "0xab") proposedWorld))
     = Some (<[addrA := "0xab"]> (Pending.signatures proposedPending)).
Proof.
  pose proof (signature_shape_check exampleGetAddress "r1" addrA proposedWorld) as [Hrej Hsto].
  split.
  - apply (Hrej (JStr "abcd")). intros s [= <-]. reflexivity.
  - apply (Hsto proposedPending addrA "0xab"); reflexivity.
Defined.

(** C4 refuted as worded: a [0x]-prefixed signature of four characters
    is stored. *)
Lemma malformed_length_is_stored : ~ malformed_always_rejected exampleGetAddress.
Proof.
  intros H.
  destruct (H "r1" addrA "0xab" proposedWorld) as [_ Hsame].
  - left. vm_compute. discriminate.
  - apply (f_equal (fun m => size <$> (Pending.signatures <$> m !! "r1"))) in Hsame.
    vm_compute in Hsame. discriminate.
Qed.

(** Both participants sign, A twice: two entries for two participants.
    A stranger's first signature on [quorumWorld] makes a third entry. *)
Lemma collected_bound_witness :
  pendingAppSessions proposedWorld !! "r1" = Some proposedPending
  /\ keysAmong (participants (Pending.appDefinition proposedPending))
       (Pending.signatures proposedPending) = true
  /\ forallb (signerAmong exampleGetAddress
                (participants (Pending.appDefinition proposedPending))) participantCalls
     = true
  /\ exists p',
       pendingAppSessions (collect exampleGetAddress "r1" participantCalls proposedWorld) !! "r1"
       = Some p'
       /\ (size (Pending.signatures p')
           <= length (participants (Pending.appDefinition p')))%nat.
Proof.
  assert (Hk : keysAmong (participants (Pending.appDefinition proposedPending))
                 (Pending.signatures proposedPending) = true) by (vm_compute; reflexivity).
  assert (Hs : forallb (signerAmong exampleGetAddress
                          (participants (Pending.appDefinition proposedPending)))
                 participantCalls = true) by (vm_compute; reflexivity).
  split; [reflexivity|]. split; [exact Hk|]. split; [exact Hs|].
  destruct (collected_bounded_by_participants exampleGetAddress "r1" participantCalls
              proposedWorld proposedPending eq_refl) as [(p' & Hp' & _ & _ & Hb) _].
  exists p'. split; [exact Hp'|exact (Hb Hk Hs)].
Defined.

Example participants_fill_the_map :
  size <$> collected "r1" (collect exampleGetAddress "r1" participantCalls proposedWorld)
  = Some 2%nat.
Proof. vm_compute. reflexivity. Qed.

(** C5 refuted as worded: three signers on a two-participant definition. *)
Lemma three_signatures_two_participants :
  ~ signatures_bounded_by_participants exampleGetAddress.
Proof.
  intros H.
  specialize (H "r1" threeCalls proposedWorld proposedPending overfullPending).
  assert (Hle : (size (Pending.signatures overfullPending)
                 <= length (participants (Pending.appDefinition overfullPending)))%nat).
  { apply H.
    - reflexivity.
    - vm_compute. lia.
    - vm_compute. reflexivity. }
  vm_compute in Hle. lia.
Qed.



Example second_call_with_invalid_address :
  generateAppSessionMessage exampleGetAddress exampleCreateAppSessionMessage
    (exampleEnv []) "r1" "not-an-address" proposedWorld
  = (Thrown (InvalidAddress "not-an-address"), proposedWorld).
Proof. vm_compute. reflexivity. Qed.

(** A timed-out submission and a rejected one both leave [quorumWorld]'s
    pending session in place; the retry is then acknowledged. *)
Lemma create_failure_witness :
  (exists e, fst (createAppSessionWithSignatures (exampleEnv []) "r1" quorumWorld) = Thrown e)
  /\ pendingAppSessions
       (snd (createAppSessionWithSignatures (exampleEnv [FErr 7 1 "rejected"]) "r1" quorumWorld))
     = pendingAppSessions quorumWorld.
Proof.
  split.
  - apply (proj1 (create_failure_keeps_pending (exampleEnv []) "r1" quorumWorld)
             (TimedOut "create_app_session")).
    reflexivity.
  - apply (proj1 (proj2 (create_failure_keeps_pending
                           (exampleEnv [FErr 7 1 "rejected"]) "r1" quorumWorld))
             (LedgerError "create_app_session" "rejected")).
    vm_compute. reflexivity.
Defined.

Example retry_after_timeout :
  let w' := snd (createAppSessionWithSignatures (exampleEnv []) "r1" quorumWorld) in
  fst (createAppSessionWithSignatures (exampleEnv []) "r1" quorumWorld)
  = Thrown (TimedOut "create_app_session")
  /\ fst (createAppSessionWithSignatures (exampleEnv [ackCreated]) "r1" w') = Returned "S1".
Proof. vm_compute. split; reflexivity. Qed.

Lemma close_noop_witness :
  roomAppSessions proposedWorld !! "r1" = None
  /\ closeAppSession exampleGetAddress (exampleEnv []) "r1" (Some addrA) proposedWorld
     = (Returned tt, proposedWorld).
Proof.
  split; [reflexivity|].
  apply (close_without_session_is_noop exampleGetAddress (exampleEnv []) "r1"
           (Some addrA) proposedWorld).
  reflexivity.
Defined.

(** A checkpoint that times out, one the ledger rejects and one without a
    client all return normally. *)
Example checkpoint_timeout_resolves :
  fst (submitAppState (exampleEnv []) "r1" 3 activeWorld) = Returned tt
  /\ fst (submitAppState (exampleEnv [FErr 9 1 "no"]) "r1" 3 activeWorld) = Returned tt.
Proof. vm_compute. split; reflexivity. Qed.

Lemma close_listener_witness :
  1 ∈ Client.pendingRequests busyClient
  /\ Client.pendingRequests (fst (Client.onClose busyClient)) = Client.pendingRequests busyClient
  /\ snd (Client.onTimer 1 (fst (Client.onClose busyClient)))
     = [Client.Reject 1 "Request timeout"].
Proof.
  assert (Hin : 1 ∈ Client.pendingRequests busyClient).
  { unfold busyClient. cbn. apply elem_of_union_r, elem_of_singleton. reflexivity. }
  pose proof (close_leaves_requests_pending busyClient) as (Hkeep & _ & _ & Htimer).
  split; [exact Hin|]. split; [exact Hkeep|].
  exact (proj1 (Htimer 1 Hin)).
Defined.

(** C9 refuted as worded: with request 1 in flight, the close listener
    rejects nothing. *)
Lemma close_rejects_nothing : ~ close_rejects_all_pending.
Proof.
  intros H. specialize (H busyClient 1).
  assert (Hin : 1 ∈ Client.pendingRequests busyClient).
  { unfold busyClient. cbn. apply elem_of_union_r, elem_of_singleton. reflexivity. }
  specialize (H Hin). vm_compute in H. discriminate.
Qed.

(** ** Further properties of the session functions *)

Section Session.

Variable getAddress : string -> option string.
Variable createAppSessionMessage : Z -> AppSessionData -> option SignedMessage.

Local Abbreviation generate := (generateAppSessionMessage getAddress createAppSessionMessage).
Local Abbreviation addSignature := (addAppSessionSignature getAddress).

(** X1. A call of [generateAppSessionMessage] that throws (invalid player
    address, missing client, failed reconnect, invalid session-key address,
    failed signing) has stored nothing: the world is as before. *)
Theorem generate_failure_stores_nothing env roomId a w e w' :
  generateAppSessionMessage getAddress createAppSessionMessage env roomId a w
  = (Thrown e, w') ->
  w' = w.
Proof.
  unfold generateAppSessionMessage. eff_unfold.
  destruct (getAddress a) as [fa|]; cbn; [|by intros [= _ <-]].
  destruct (pendingAppSessions w !! roomId) as [p|]; [discriminate|].
  destruct (clientInitialized env); cbn; [|by intros [= _ <-]].
  destruct (connectSucceeds env); cbn; [|by intros [= _ <-]].
  destruct (getAddress (sessionKeyAddress env)) as [srv|]; cbn; [|by intros [= _ <-]].
  destruct (createAppSessionMessage _ _) as [pm|]; cbn; [discriminate|by intros [= _ <-]].
Qed.

(** X2. A proposal generated for a room without a pending session: the
    participants are the canonical player address followed by the canonical
    session-key address, the weights are 0 and 100 with quorum 100 and no
    challenge period, the nonce is the clock value, the only allocation is
    the player's with amount 0, the request tuple is the signer's, and the
    room's pending session starts with no signatures. Sessions of other
    rooms, active sessions and the socket are untouched. *)
Theorem fresh_proposal_shape env roomId a w r w1 :
  pendingAppSessions w !! roomId = None ->
  generate env roomId a w = (Returned r, w1) ->
  exists fa srv pm,
    getAddress a = Some fa
    /\ getAddress (sessionKeyAddress env) = Some srv
    /\ createAppSessionMessage (now env) (prop_appSessionData r) = Some pm
    /\ prop_participants r = [fa; srv]
    /\ prop_appDefinition r =
         {| protocol := "NitroRPC/0.4"; participants := [fa; srv]; weights := [0; 100];
            quorum := 100; challenge := 0; nonce := now env |}
    /\ definition (prop_appSessionData r) = prop_appDefinition r
    /\ allocations (prop_appSessionData r)
       = [ {| participant := fa; asset := "usdc"; amount := "0" |} ]
    /\ prop_requestToSign r = msg_req pm
    /\ collected roomId w1 = Some ∅
    /\ (forall other, other <> roomId ->
          pendingAppSessions w1 !! other = pendingAppSessions w !! other)
    /\ roomAppSessions w1 = roomAppSessions w
    /\ wire w1 = wire w.
Proof.
  intros Hp. unfold generateAppSessionMessage. eff_unfold.
  destruct (getAddress a) as [fa|] eqn:Ha; cbn; [|discriminate].
  rewrite Hp.
  destruct (clientInitialized env); cbn; [|discriminate].
  destruct (connectSucceeds env); cbn; [|discriminate].
  destruct (getAddress (sessionKeyAddress env)) as [srv|] eqn:Hsrv; cbn; [|discriminate].
  destruct (createAppSessionMessage _ _) as [pm|] eqn:Hpm; cbn; [|discriminate].
  intros [= <- <-]. exists fa, srv, pm. cbn.
  repeat split; try done.
  - unfold collected. cbn. rewrite lookup_insert_eq. reflexivity.
  - intros other Hne. apply lookup_insert_ne. congruence.
Qed.

(** X3. Signatures are keyed by the canonical address: when two calls name
    the same signer in two spellings, the later signature replaces the
    earlier one and the signer is counted once. *)
Theorem resign_overwrites roomId a a' fa s s' w p :
  pendingAppSessions w !! roomId = Some p ->
  getAddress a = Some fa ->
  getAddress a' = Some fa ->
  startsWith "0x" s = true ->
  startsWith "0x" s' = true ->
  let w2 := snd (addSignature roomId a' (JStr s')
                   (snd (addSignature roomId a (JStr s) w))) in
  collected roomId w2 = Some (<[fa := s']> (Pending.signatures p))
  /\ (forall sigs, collected roomId w2 = Some sigs ->
        sigs !! fa = Some s'
        /\ size sigs = size (<[fa := s]> (Pending.signatures p))).
Proof.
  intros Hp Ha Ha' Hs Hs' w2. subst w2.
  rewrite (addSignature_stores getAddress roomId a fa s w p Hp Ha Hs). cbn [snd].
  erewrite addSignature_stores; [|cbn; apply lookup_insert_eq|exact Ha'|exact Hs'].
  cbn [snd]. unfold collected. cbn.
  rewrite lookup_insert_eq. cbn. rewrite insert_insert_eq.
  split; [reflexivity|].
  intros sigs [= <-]. split; [apply lookup_insert_eq|].
  rewrite !map_size_insert. reflexivity.
Qed.


(** The world after an acknowledged assembly. *)
Lemma create_success env roomId w p resp id a0 :
  pendingAppSessions w !! roomId = Some p ->
  size (Pending.signatures p) = 2%nat ->
  clientInitialized env = true ->
  connectSucceeds env = true ->
  wsReadyState env = Some 1 ->
  awaitByMethod "create_app_session" (inbound env) = Returned resp ->
  js_or (app_session_id resp) (appSessionId_camel resp) = Some id ->
  id <> EmptyString ->
  head (allocations (Pending.appSessionData p)) = Some a0 ->
  createAppSessionWithSignatures env roomId w
  = (Returned id,
     {| roomAppSessions := <[roomId := activate env p id (amount a0)]> (roomAppSessions w);
        pendingAppSessions := delete roomId (pendingAppSessions w);
        wire := wire w ++ [WCreate (assembleRequest p)] |}).
Proof.
  intros Hp Hsz Hc Hk Hws Haw Hid Hne Ha0.
  unfold createAppSessionWithSignatures. eff_unfold. cbn.
  rewrite Hp, Hsz, Hc. cbn. rewrite Hk. cbn. rewrite Hws. cbn. rewrite Haw. cbn.
  rewrite Hid. cbn. apply String.eqb_neq in Hne. rewrite Hne. cbn.
  rewrite Ha0. reflexivity.
Qed.

(** X5. The answer of [addAppSessionSignature] is the assembly gate: when
    a well-formed signature is stored, the call returns true exactly when
    the map then holds two entries, and in that case
    [createAppSessionWithSignatures] is past its signature check: with a
    connected client and an acknowledgment that carries a session id it
    returns that id. *)
Theorem quorum_flag_opens_assembly env roomId a fa s w p resp id a0 :
  pendingAppSessions w !! roomId = Some p ->
  getAddress a = Some fa ->
  startsWith "0x" s = true ->
  head (allocations (Pending.appSessionData p)) = Some a0 ->
  clientInitialized env = true ->
  connectSucceeds env = true ->
  wsReadyState env = Some 1 ->
  awaitByMethod "create_app_session" (inbound env) = Returned resp ->
  js_or (app_session_id resp) (appSessionId_camel resp) = Some id ->
  id <> EmptyString ->
  let res := addSignature roomId a (JStr s) w in
  (fst res = Returned true <-> size (<[fa := s]> (Pending.signatures p)) = 2%nat)
  /\ (fst res = Returned true ->
      fst (createAppSessionWithSignatures env roomId (snd res)) = Returned id).
Proof.
  intros Hp Ha Hs Ha0 Hc Hk Hws Haw Hid Hne res. subst res.
  rewrite (addSignature_stores getAddress roomId a fa s w p Hp Ha Hs). cbn [fst snd].
  split.
  - split.
    + intros [= H]. by apply Nat.eqb_eq in H.
    + intros H. by rewrite H.
  - intros [= H]. apply Nat.eqb_eq in H.
    rewrite (create_success env roomId _
               (Pending.with_signatures (<[fa := s]> (Pending.signatures p)) p)
               resp id a0); try done.
    cbn. apply lookup_insert_eq.
Qed.

(** X6. Collecting past two loses the gate again: with two signatures
    stored, a well-formed signature from a third address is stored too, the
    call returns false, and assembly is then refused with "have 3/2". *)
Theorem third_signature_closes_gate env roomId a fa s w p :
  pendingAppSessions w !! roomId = Some p ->
  size (Pending.signatures p) = 2%nat ->
  getAddress a = Some fa ->
  Pending.signatures p !! fa = None ->
  startsWith "0x" s = true ->
  let res := addSignature roomId a (JStr s) w in
  fst res = Returned false
  /\ (size <$> collected roomId (snd res)) = Some 3%nat
  /\ createAppSessionWithSignatures env roomId (snd res)
     = (Thrown (NotAllSignatures 3), snd res).
Proof.
  intros Hp Hsz Ha Hnew Hs res. subst res.
  rewrite (addSignature_stores getAddress roomId a fa s w p Hp Ha Hs). cbn [fst snd].
  assert (Hsz3 : size (<[fa := s]> (Pending.signatures p)) = 3%nat).
  { rewrite map_size_insert_None by exact Hnew. by rewrite Hsz. }
  rewrite Hsz3. split; [reflexivity|]. split.
  - unfold collected. cbn. rewrite lookup_insert_eq. cbn. by rewrite Hsz3.
  - rewrite <- Hsz3.
    erewrite (create_refused env roomId _
                (Pending.with_signatures (<[fa := s]> (Pending.signatures p)) p)).
    + reflexivity.
    + cbn. apply lookup_insert_eq.
    + cbn. rewrite Hsz3. discriminate.
Qed.


Ltac close_fin :=
  repeat split; try done; try discriminate; eauto; try congruence.

Ltac close_paths env :=
  destruct (signingSucceeds env); cbn; [|close_fin];
  destruct (wsReadyState env) as [[| [| |] |]|]; cbn; try (close_fin; fail);
  destruct (awaitByMethod "close_app_session" (inbound env)) eqn:?; cbn; close_fin.

(** X8. [closeAppSession] on a stored session deletes it only after the
    ledger acknowledged the close. Every failure, including the 30 s
    timeout and an error frame, is thrown on to the caller and leaves the
    session stored; pending sessions are never touched. *)
Theorem close_deletes_only_on_ack env roomId winnerEOA w session :
  roomAppSessions w !! roomId = Some session ->
  let res := closeAppSession getAddress env roomId winnerEOA w in
  pendingAppSessions (snd res) = pendingAppSessions w
  /\ (fst res = Returned tt ->
      roomAppSessions (snd res) = delete roomId (roomAppSessions w)
      /\ exists resp, awaitByMethod "close_app_session" (inbound env) = Returned resp)
  /\ (forall e, fst res = Thrown e -> roomAppSessions (snd res) = roomAppSessions w)
  /\ (forall e, awaitByMethod "close_app_session" (inbound env) = Thrown e ->
                exists e', fst res = Thrown e').
Proof.
  intros Hs. unfold closeAppSession, payout, closeAllocations. eff_unfold. cbn.
  rewrite Hs. cbn.
  destruct (clientInitialized env); cbn; [|close_fin].
  destruct (connectSucceeds env); cbn; [|close_fin].
  destruct winnerEOA as [a|]; cbn; [|close_paths env].
  destruct (negb (String.eqb a EmptyString)); cbn; [|close_paths env].
  destruct (getAddress a) as [fa|]; cbn; [|close_fin].
  destruct (negb (String.eqb fa EmptyString)); cbn; [|close_paths env].
  destruct (bool_decide (Some fa = Some (Active.participantA session))); cbn; [close_fin|].
  destruct (bool_decide (Some fa = Active.participantB session)); cbn; [close_fin|].
  close_paths env.
Qed.

(** X9. Closing is final for the room: after a close that returned, a
    second close (whatever the winner and the connection) and a state
    update both return without sending anything or changing the world. *)
Theorem close_then_nothing_left env env2 roomId winnerEOA winnerEOA2 gameTime w w' session :
  roomAppSessions w !! roomId = Some session ->
  closeAppSession getAddress env roomId winnerEOA w = (Returned tt, w') ->
  closeAppSession getAddress env2 roomId winnerEOA2 w' = (Returned tt, w')
  /\ submitAppState env2 roomId gameTime w' = (Returned tt, w').
Proof.
  intros Hs Hclose.
  assert (Hgone : roomAppSessions w' !! roomId = None).
  { pose proof (close_cases getAddress env roomId winnerEOA w session Hs) as Hc.
    cbv zeta in Hc. rewrite Hclose in Hc. cbn [fst snd] in Hc.
    destruct Hc as [(e & [=] & _) | (cd & _ & _ & [(e & [=] & _) | (_ & ->)])].
    cbn. apply lookup_delete_eq. }
  split.
  - unfold closeAppSession. eff_unfold. rewrite Hgone. reflexivity.
  - unfold submitAppState. eff_unfold. rewrite Hgone. reflexivity.
Qed.

(** X10. A state update never redistributes: whatever [submitAppState]
    writes to the socket is one message for the stored session id whose
    three allocations give both player slots the session's bet amount and
    the service 0, with the session's fee history and move list carried
    over unchanged. With a client that is connected and signs, that
    message is written even when the acknowledgment then fails. *)
Theorem state_update_keeps_balances env roomId gameTime w session :
  roomAppSessions w !! roomId = Some session ->
  let w' := snd (submitAppState env roomId gameTime w) in
  exists new,
    wire w' = (wire w ++ new)%list
    /\ (length new <= 1)%nat
    /\ (forall m, m ∈ new ->
          exists sd,
            m = WState sd
            /\ state_app_session_id sd = Active.appSessionId session
            /\ state_allocations sd =
                 [ {| sa_participant := Some (Active.participantA session);
                      sa_asset := "usdc"; sa_amount := Active.betAmount session |};
                   {| sa_participant := Active.participantB session;
                      sa_asset := "usdc"; sa_amount := Active.betAmount session |};
                   {| sa_participant := Some (Active.serverAddress session);
                      sa_asset := "usdc"; sa_amount := "0" |} ]
            /\ sd_feeHistory (state_session_data sd) = Active.feeHistory session
            /\ sd_moves (state_session_data sd) = Active.moves session
            /\ totalMoves (state_session_data sd) = length (Active.moves session))
    /\ (clientInitialized env = true ->
        connectSucceeds env = true ->
        signingSucceeds env = true ->
        wsReadyState env = Some 1 ->
        length new = 1%nat).
Proof.
  intros Hs w'. subst w'. unfold submitAppState. eff_unfold. cbn. rewrite Hs. cbn.
  assert (Hnil : forall P : WireMsg -> Prop, forall m, m ∈ @nil WireMsg -> P m)
    by (intros P m Hm; by apply not_elem_of_nil in Hm).
  destruct (clientInitialized env); cbn;
    [|exists []; rewrite app_nil_r; repeat split; try done; cbn; try lia; apply Hnil].
  destruct (connectSucceeds env); cbn;
    [|exists []; rewrite app_nil_r; repeat split; try done; cbn; try lia; apply Hnil].
  destruct (signingSucceeds env); cbn;
    [|exists []; rewrite app_nil_r; repeat split; try done; cbn; try lia; apply Hnil].
  destruct (wsReadyState env) as [st|]; cbn;
    [|exists []; rewrite app_nil_r; repeat split; try done; cbn; try lia; apply Hnil].
  destruct (st =? 1) eqn:Hst; cbn.
  - destruct (awaitByMethod "submit_app_state" (inbound env)); cbn;
      (eexists [_]; split; [reflexivity|]; split; [cbn; lia|]; split; [|reflexivity];
       intros m Hm; apply list_elem_of_singleton in Hm as ->;
       eexists; split; [reflexivity|]; repeat split).
  - exists []. rewrite app_nil_r. repeat split; try done; cbn; try lia; [apply Hnil|].
    intros _ _ _ [= ->]. discriminate.
Qed.

(** X11. The move log is append-only and numbered by position: a recorded
    move is put after the moves already stored, under the canonical player
    address and with number one more than the count before, so a log
    numbered 1, 2, ... stays so; everything else in the session, the
    pending sessions and the socket are unchanged. An address that is not
    valid makes the call throw with nothing recorded. *)
Theorem addMoveToSession_appends roomId playerEOA dir ts w session :
  roomAppSessions w !! roomId = Some session ->
  let res := addMoveToSession getAddress roomId playerEOA dir ts w in
  (getAddress playerEOA = None -> res = (Thrown (InvalidAddress playerEOA), w))
  /\ (forall fa,
        getAddress playerEOA = Some fa ->
        exists session',
          fst res = Returned tt
          /\ roomAppSessions (snd res) = <[roomId := session']> (roomAppSessions w)
          /\ pendingAppSessions (snd res) = pendingAppSessions w
          /\ wire (snd res) = wire w
          /\ Active.moves session' =
               (Active.moves session ++
                [ {| player := fa; direction := dir; move_timestamp := ts;
                     moveNumber := S (length (Active.moves session)) |} ])%list
          /\ Active.appSessionId session' = Active.appSessionId session
          /\ Active.betAmount session' = Active.betAmount session
          /\ Active.feeHistory session' = Active.feeHistory session
          /\ ((forall i m, Active.moves session !! i = Some m -> moveNumber m = S i) ->
              forall i m, Active.moves session' !! i = Some m -> moveNumber m = S i)).
Proof.
  intros Hs res. subst res. unfold addMoveToSession. eff_unfold. cbn. rewrite Hs. cbn.
  split.
  - intros ->. reflexivity.
  - intros fa ->. cbn. eexists. repeat (split; [reflexivity|]).
    cbn. intros Hnum i m Hi.
    apply lookup_app_Some in Hi as [Hi | [Hge Hi]].
    + by apply Hnum.
    + apply list_lookup_singleton_Some in Hi as [Hz <-]. cbn. lia.
Qed.

End Session.

(** ** Correlation by method tag *)

Lemma await_skip tag pre rest :
  forallb (fun f => negb (decisive tag f)) pre = true ->
  awaitByMethod tag (pre ++ rest) = awaitByMethod tag rest.
Proof.
  induction pre as [|f pre IH]; cbn; [done|].
  intros [Hf Hpre]%andb_prop. destruct f as [rid m ps | rid code msg |]; cbn in *.
  - apply negb_true_iff in Hf. rewrite Hf. by apply IH.
  - discriminate.
  - by apply IH.
Qed.

(** X12. A wait by method tag is decided by the first frame that is a
    response with that method or an error frame: responses of other
    methods and unreadable frames before it are skipped, frames after it
    play no part. An error frame ends the wait by rejection whatever
    request id it carries. *)
Theorem first_decisive_frame_decides tag pre f rest :
  forallb (fun f => negb (decisive tag f)) pre = true ->
  decisive tag f = true ->
  awaitByMethod tag (pre ++ f :: rest) = verdict tag f
  /\ (forall rid code msg, f = FErr rid code msg ->
        awaitByMethod tag (pre ++ f :: rest) = Thrown (LedgerError tag msg))
  /\ (forall rid m ps, f = FRes rid m ps ->
        awaitByMethod tag (pre ++ f :: rest) = Returned ps).
Proof.
  intros Hpre Hf. rewrite (await_skip tag pre (f :: rest) Hpre).
  destruct f as [rid m ps | rid code msg |]; cbn in *.
  - rewrite Hf. repeat split; try done. by intros ??? [= _ _ <-].
  - repeat split; try done. by intros ??? [= _ _ <-].
  - discriminate.
Qed.

(** X13. A wait by method tag ends in the timeout exactly when no frame
    that arrives in time is a response with that method or an error
    frame. *)
Theorem await_times_out_iff tag frames :
  awaitByMethod tag frames = Thrown (TimedOut tag)
  <-> forallb (fun f => negb (decisive tag f)) frames = true.
Proof.
  induction frames as [|f frames IH]; cbn; [done|].
  destruct f as [rid m ps | rid code msg |]; cbn.
  - destruct (String.eqb m tag); cbn; [split; discriminate|exact IH].
  - split; discriminate.
  - exact IH.
Qed.

(** ** The request table over runs of events *)

Lemma clientStep_counter e c :
  Client.nextRequestId c <= Client.nextRequestId (fst (clientStep e c)).
Proof.
  destruct e as [| ok | signs method | m | id | | |]; cbn.
  - unfold connectBegin, Client.setStatus. repeat case_match; simplify_eq; cbn; lia.
  - unfold onOpen, Client.setStatus. repeat case_match; simplify_eq; cbn; lia.
  - unfold Client.sendRequest. repeat case_match; simplify_eq; cbn; lia.
  - unfold Client.handleMessage. repeat case_match; simplify_eq; cbn; lia.
  - unfold Client.onTimer. repeat case_match; simplify_eq; cbn; lia.
  - unfold Client.onClose, Client.setStatus. repeat case_match; simplify_eq; cbn; lia.
  - unfold Client.disconnect, Client.setStatus. repeat case_match; simplify_eq; cbn; lia.
  - lia.
Qed.

Lemma clientStep_invariant e c :
  idsBelowCounter c -> idsBelowCounter (fst (clientStep e c)).
Proof.
  unfold idsBelowCounter. intros Hc.
  destruct e as [| ok | signs method | m | id | | |]; cbn.
  - unfold connectBegin, Client.setStatus. repeat case_match; simplify_eq; cbn; try done; try exact Hc.
  - unfold onOpen, Client.setStatus. repeat case_match; simplify_eq; cbn; try done; try exact Hc.
  - unfold Client.sendRequest. repeat case_match; simplify_eq; cbn; [| |done].
    + intros id [Hin| ->%elem_of_singleton]%elem_of_union; [|lia].
      specialize (Hc id Hin). lia.
    + intros id [Hin _]%elem_of_difference. specialize (Hc id Hin). lia.
  - unfold Client.handleMessage. repeat case_match; simplify_eq; cbn; try done;
      intros ? [Hin _]%elem_of_difference; by apply Hc.
  - unfold Client.onTimer. repeat case_match; simplify_eq; cbn; try done;
      intros ? [Hin _]%elem_of_difference; by apply Hc.
  - unfold Client.onClose, Client.setStatus. repeat case_match; simplify_eq; cbn; done.
  - unfold Client.disconnect, Client.setStatus. repeat case_match; simplify_eq; cbn; done.
  - done.
Qed.

Ltac not_in_diff :=
  first [ by (intros [_ Hx]%elem_of_difference; apply Hx, elem_of_singleton)
        | by (intros [Hx _]%elem_of_difference) ].

Ltac split_on_id id :=
  match goal with
  | |- context [bool_decide (?a = id)] =>
      let H := fresh "Hid" in
      destruct (bool_decide (a = id)) eqn:H;
      [apply bool_decide_eq_true_1 in H | apply bool_decide_eq_false_1 in H]
  end.

(** One step settles a request at most once. *)
Lemma clientStep_settles_once e c id :
  (settlements id (snd (clientStep e c)) <= 1)%nat.
Proof.
  unfold settlements.
  destruct e as [| ok | signs method | m | i | | |]; cbn.
  - unfold connectBegin, Client.setStatus. repeat case_match; simplify_eq; cbn; lia.
  - unfold onOpen, Client.setStatus. repeat case_match; simplify_eq; cbn; lia.
  - unfold Client.sendRequest. repeat case_match; simplify_eq; cbn; try lia.
    split_on_id id; cbn; lia.
  - unfold Client.handleMessage. repeat case_match; simplify_eq; cbn; try lia;
      split_on_id id; cbn; lia.
  - unfold Client.onTimer. repeat case_match; simplify_eq; cbn; try lia.
    split_on_id id; cbn; lia.
  - unfold Client.onClose, Client.setStatus. repeat case_match; simplify_eq; cbn; lia.
  - unfold Client.disconnect, Client.setStatus. repeat case_match; simplify_eq; cbn; lia.
  - lia.
Qed.

(** A request settled by a step is unregistered afterwards and its id lies
    below the counter. *)
Lemma clientStep_settled_gone e c id :
  idsBelowCounter c ->
  settlements id (snd (clientStep e c)) <> 0%nat ->
  (id ∉ Client.pendingRequests (fst (clientStep e c)))
  /\ (id < Client.nextRequestId (fst (clientStep e c))).
Proof.
  unfold settlements. intros Hc.
  destruct e as [| ok | signs method | m | i | | |]; cbn.
  - unfold connectBegin, Client.setStatus. repeat case_match; simplify_eq; cbn; done.
  - unfold onOpen, Client.setStatus. repeat case_match; simplify_eq; cbn; done.
  - unfold Client.sendRequest. repeat case_match; simplify_eq; cbn; try done.
    split_on_id id; cbn; [|done]. subst id. intros _. split; [not_in_diff|lia].
  - unfold Client.handleMessage.
    destruct (Client.requestId m) as [i|]; cbn; [|done].
    destruct (bool_decide (i ∈ Client.pendingRequests c)) eqn:Hin; cbn; [|done].
    apply bool_decide_eq_true_1 in Hin.
    destruct (Client.isError m); cbn;
      (split_on_id id; cbn; [|done]; subst; intros _; split; [not_in_diff|by apply Hc]).
  - unfold Client.onTimer.
    destruct (bool_decide (i ∈ Client.pendingRequests c)) eqn:Hin; cbn; [|done].
    apply bool_decide_eq_true_1 in Hin.
    split_on_id id; cbn; [|done]. subst. intros _. split; [not_in_diff|by apply Hc].
  - unfold Client.onClose, Client.setStatus. repeat case_match; simplify_eq; cbn; done.
  - unfold Client.disconnect, Client.setStatus. repeat case_match; simplify_eq; cbn; done.
  - done.
Qed.

(** A request that is not registered and whose id lies below the counter
    is neither settled nor registered by a step. *)
Lemma clientStep_spent e c id :
  id ∉ Client.pendingRequests c ->
  id < Client.nextRequestId c ->
  (settlements id (snd (clientStep e c)) = 0%nat)
  /\ (id ∉ Client.pendingRequests (fst (clientStep e c))).
Proof.
  unfold settlements. intros Hn Hlt.
  destruct e as [| ok | signs method | m | i | | |]; cbn.
  - unfold connectBegin, Client.setStatus. repeat case_match; simplify_eq; cbn; done.
  - unfold onOpen, Client.setStatus. repeat case_match; simplify_eq; cbn; done.
  - unfold Client.sendRequest.
    destruct (bool_decide (Client.ws c = Some Client.OPEN)); cbn; [|done].
    destruct signs; cbn.
    + split; [done|]. intros [?|?%elem_of_singleton]%elem_of_union; [done|lia].
    + split_on_id id; cbn; [lia|]. split; [done|not_in_diff].
  - unfold Client.handleMessage.
    destruct (Client.requestId m) as [i|]; cbn; [|done].
    destruct (bool_decide (i ∈ Client.pendingRequests c)) eqn:Hin; cbn; [|done].
    apply bool_decide_eq_true_1 in Hin.
    destruct (Client.isError m); cbn;
      (split_on_id id; cbn; [by subst | split; [done|not_in_diff]]).
  - unfold Client.onTimer.
    destruct (bool_decide (i ∈ Client.pendingRequests c)) eqn:Hin; cbn; [|done].
    apply bool_decide_eq_true_1 in Hin.
    split_on_id id; cbn; [by subst | split; [done|not_in_diff]].
  - unfold Client.onClose, Client.setStatus. repeat case_match; simplify_eq; cbn; done.
  - unfold Client.disconnect, Client.setStatus. repeat case_match; simplify_eq; cbn; done.
  - done.
Qed.

Lemma settlements_app id (a b : list Client.Effect) :
  settlements id (a ++ b) = (settlements id a + settlements id b)%nat.
Proof. unfold settlements. by rewrite List.filter_app, length_app. Qed.

Lemma clientRun_cons e es c :
  clientRun (e :: es) c
  = (fst (clientRun es (fst (clientStep e c))),
     (snd (clientStep e c) ++ snd (clientRun es (fst (clientStep e c))))%list).
Proof.
  cbn. destruct (clientStep e c) as [c1 effs1]. cbn.
  destruct (clientRun es c1) as [c2 effs2]. reflexivity.
Qed.

Lemma clientRun_invariant es c :
  idsBelowCounter c ->
  idsBelowCounter (fst (clientRun es c))
  /\ Client.nextRequestId c <= Client.nextRequestId (fst (clientRun es c)).
Proof.
  revert c. induction es as [|e es IH]; intros c Hc; [cbn; split; [done|lia]|].
  rewrite clientRun_cons. cbn [fst].
  destruct (IH _ (clientStep_invariant e c Hc)) as [Hinv Hle].
  split; [exact Hinv|]. pose proof (clientStep_counter e c). lia.
Qed.

Lemma clientRun_spent es c id :
  id ∉ Client.pendingRequests c ->
  id < Client.nextRequestId c ->
  settlements id (snd (clientRun es c)) = 0%nat.
Proof.
  revert c. induction es as [|e es IH]; intros c Hn Hlt; [reflexivity|].
  rewrite clientRun_cons. cbn [snd]. rewrite settlements_app.
  destruct (clientStep_spent e c id Hn Hlt) as [-> Hn'].
  rewrite IH; [reflexivity|exact Hn'|].
  pose proof (clientStep_counter e c). lia.
Qed.

(** X14. Request ids are never reused. Over any run of events (connects,
    sends, inbound messages, timers, closes, disconnects) from a client
    whose registered ids lie below its counter, as after construction, the
    counter never decreases, every registered id stays below it, and
    the id a [sendRequest] draws next is the counter itself: it is not
    registered and exceeds every id drawn before. *)
Theorem request_ids_are_fresh es c signs method :
  idsBelowCounter c ->
  let c' := fst (clientRun es c) in
  idsBelowCounter c'
  /\ Client.nextRequestId c <= Client.nextRequestId c'
  /\ forall id, fst (fst (Client.sendRequest signs method c')) = Some id ->
       id = Client.nextRequestId c'
       /\ (id ∉ Client.pendingRequests c')
       /\ Client.nextRequestId (snd (fst (Client.sendRequest signs method c'))) = id + 1.
Proof.
  intros Hc c'. destruct (clientRun_invariant es c Hc) as [Hinv Hle].
  fold c' in Hinv, Hle. clearbody c'.
  split; [exact Hinv|]. split; [exact Hle|].
  intros id. unfold Client.sendRequest.
  destruct (bool_decide (Client.ws c' = Some Client.OPEN)); [|discriminate].
  unfold idsBelowCounter in Hinv.
  destruct signs; cbn; intros [= <-];
    (split; [reflexivity|]; split; [|reflexivity]);
    intros Hin; apply Hinv in Hin; lia.
Qed.

(** X15. No request is settled twice. Over any run of events from a
    client whose registered ids lie below its counter, the promise of each
    request id is resolved or rejected at most once: a response after the
    timeout, a timer after the response and a repeated response all find
    the entry gone. *)
Theorem request_settled_at_most_once es c id :
  idsBelowCounter c ->
  (settlements id (snd (clientRun es c)) <= 1)%nat.
Proof.
  revert c. induction es as [|e es IH]; intros c Hc; [cbn; lia|].
  rewrite clientRun_cons. cbn [snd]. rewrite settlements_app.
  pose proof (clientStep_settles_once e c id) as Hone.
  destruct (Nat.eq_dec (settlements id (snd (clientStep e c))) 0%nat) as [Hz | Hnz].
  - rewrite Hz. cbn. apply IH. by apply clientStep_invariant.
  - destruct (clientStep_settled_gone e c id Hc Hnz) as [Hgone Hlt].
    rewrite (clientRun_spent es _ id Hgone Hlt). lia.
Qed.

(** X16. A response and the timer of the same registered request race
    for it and the first wins: after the response the entry is removed and
    the timer finds nothing to reject; after the timer the request is
    rejected with "Request timeout" and the late response is dropped. A
    message whose id is not registered changes nothing. *)
Theorem response_timer_race c m id :
  Client.requestId m = Some id ->
  (id ∈ Client.pendingRequests c ->
   snd (clientRun [EvMessage m; EvTimer id] c)
   = [if Client.isError m
      then Client.Reject id ("RPC Error: " ++ default "Unknown error" (Client.errorText m))
      else Client.Resolve id (Client.result m)]
   /\ snd (clientRun [EvTimer id; EvMessage m] c) = [Client.Reject id "Request timeout"]
   /\ Client.pendingRequests (fst (clientRun [EvMessage m; EvTimer id] c))
      = Client.pendingRequests c ∖ {[id]}
   /\ Client.pendingRequests (fst (clientRun [EvTimer id; EvMessage m] c))
      = Client.pendingRequests c ∖ {[id]})
  /\ (id ∉ Client.pendingRequests c -> Client.handleMessage m c = (c, [])).
Proof.
  intros Hm. split.
  - intros Hin. cbn. unfold Client.handleMessage, Client.onTimer. rewrite Hm. cbn.
    rewrite (bool_decide_eq_true_2 _ Hin). cbn.
    assert (Hout : id ∉ Client.pendingRequests c ∖ {[id]}) by not_in_diff.
    rewrite (bool_decide_eq_false_2 _ Hout). cbn.
    repeat split.
  - intros Hout. unfold Client.handleMessage. rewrite Hm.
    by rewrite (bool_decide_eq_false_2 _ Hout).
Qed.


(** ** Movement on the grid *)

Section Movement.

Variables GRID_WIDTH GRID_HEIGHT : Z.
Variable getAddress : string -> option string.

Local Abbreviation moveActor := (Game.moveActor GRID_WIDTH GRID_HEIGHT).
Local Abbreviation changeDirection := (Game.changeDirection GRID_WIDTH GRID_HEIGHT getAddress).

(** Everything a successful [moveActor] went through. *)
Lemma moveActor_success_inv g actorId direction now g' :
  moveActor g actorId direction now = Game.Success g' ->
  exists ref actor dx dy column,
    Game.findActor g actorId = Some ref
    /\ Game.actorList g !! ref = Some actor
    /\ Game.delta direction = Some (dx, dy)
    /\ 0 <= Game.x actor + dx < GRID_WIDTH
    /\ 0 <= Game.y actor + dy < GRID_HEIGHT
    /\ Game.map g !! Z.to_nat (Game.x actor + dx) = Some column
    /\ column !! Z.to_nat (Game.y actor + dy) = Some 0
    /\ Game.tooFast (Game.lastMove g) now = false
    /\ Game.actorMap g !! (Game.x actor + dx, Game.y actor + dy) = None
    /\ g' = {| Game.map := Game.map g;
               Game.actorList :=
                 <[ref := Game.moveTo actor (Game.x actor + dx) (Game.y actor + dy)]>
                   (Game.actorList g);
               Game.actorMap :=
                 <[(Game.x actor + dx, Game.y actor + dy) := ref]>
                   (delete (Game.x actor, Game.y actor) (Game.actorMap g));
               Game.player := Game.player g;
               Game.players := Game.players g;
               Game.lastMove := Some now;
               Game.winner := Game.winner g;
               Game.isGameOver := Game.isGameOver g;
               Game.gameTime := Game.gameTime g |}.
Proof.
  unfold Game.moveActor.
  destruct (Game.findActor g actorId) as [ref|] eqn:Hf; [|discriminate].
  destruct (Game.actorList g !! ref) as [actor|] eqn:Ha; [|discriminate].
  destruct (Game.delta direction) as [[dx dy]|] eqn:Hd; [|discriminate].
  destruct ((Game.x actor + dx <? 0) || (Game.x actor + dx >=? GRID_WIDTH)
            || (Game.y actor + dy <? 0) || (Game.y actor + dy >=? GRID_HEIGHT)) eqn:Hb;
    [discriminate|].
  destruct (Game.map g !! Z.to_nat (Game.x actor + dx)) as [column|] eqn:Hcol;
    [|discriminate].
  destruct (bool_decide (column !! Z.to_nat (Game.y actor + dy) = Some 0)) eqn:Hcell;
    cbn; [|discriminate].
  apply bool_decide_eq_true_1 in Hcell.
  destruct (Game.tooFast (Game.lastMove g) now) eqn:Hfast; [discriminate|].
  destruct (Game.actorMap g !! (Game.x actor + dx, Game.y actor + dy)) eqn:Hfree;
    [discriminate|].
  intros [= <-]. exists ref, actor, dx, dy, column.
  repeat (split; [done || lia|]). reflexivity.
Qed.

Lemma delta_unit direction dx dy :
  Game.delta direction = Some (dx, dy) -> Z.abs dx + Z.abs dy = 1.
Proof.
  unfold Game.delta. repeat case_match; intros [= <- <-]; reflexivity.
Qed.

(** X18. A move that succeeds takes the actor exactly one cell along an
    axis, onto a cell inside the grid whose map value is 0 and on which no
    actor was filed; only that actor's coordinates change, every other
    actor, the map and the clock-independent fields stay, and the time of
    the move is recorded. *)
Theorem successful_move_is_one_free_step g actorId direction now g' :
  moveActor g actorId direction now = Game.Success g' ->
  exists ref actor actor' column,
    Game.findActor g actorId = Some ref
    /\ Game.actorList g !! ref = Some actor
    /\ Game.actorList g' !! ref = Some actor'
    /\ Z.abs (Game.x actor' - Game.x actor) + Z.abs (Game.y actor' - Game.y actor) = 1
    /\ 0 <= Game.x actor' < GRID_WIDTH
    /\ 0 <= Game.y actor' < GRID_HEIGHT
    /\ Game.map g !! Z.to_nat (Game.x actor') = Some column
    /\ column !! Z.to_nat (Game.y actor') = Some 0
    /\ Game.actorMap g !! (Game.x actor', Game.y actor') = None
    /\ Game.actorMap g' !! (Game.x actor', Game.y actor') = Some ref
    /\ Game.hp actor' = Game.hp actor /\ Game.id actor' = Game.id actor
    /\ (forall j, j <> ref -> Game.actorList g' !! j = Game.actorList g !! j)
    /\ Game.map g' = Game.map g
    /\ Game.lastMove g' = Some now.
Proof.
  intros Hmove.
  destruct (moveActor_success_inv _ _ _ _ _ Hmove)
    as (ref & actor & dx & dy & column & Hf & Ha & Hd & Hx & Hy & Hcol & Hcell & _ & Hfree & ->).
  exists ref, actor, (Game.moveTo actor (Game.x actor + dx) (Game.y actor + dy)), column.
  cbn. split; [done|]. split; [done|].
  split; [apply list_lookup_insert_eq; by eapply lookup_lt_Some|].
  split; [pose proof (delta_unit _ _ _ Hd); lia|].
  repeat (split; [done|]).
  split; [apply lookup_insert_eq|].
  repeat (split; [done|]).
  split; [|done]. intros j Hj. by apply list_lookup_insert_ne.
Qed.

(** X19. Successful moves keep the position index sound: if every actor is
    filed in [actorMap] under its own cell and every entry refers to an
    actor standing there, the same holds after the move. In particular no
    two actors ever come to stand on one cell. *)
Theorem move_keeps_index_consistent g actorId direction now g' :
  Game.consistent g ->
  moveActor g actorId direction now = Game.Success g' ->
  Game.consistent g'
  /\ (forall i j a b,
        Game.actorList g' !! i = Some a -> Game.actorList g' !! j = Some b ->
        (Game.x a, Game.y a) = (Game.x b, Game.y b) -> i = j).
Proof.
  intros [Hlist Hmap] Hmove.
  destruct (moveActor_success_inv _ _ _ _ _ Hmove)
    as (ref & actor & dx & dy & column & _ & Ha & _ & _ & _ & _ & _ & _ & Hfree & ->).
  set (nx := Game.x actor + dx) in *. set (ny := Game.y actor + dy) in *.
  assert (Hlt : (ref < length (Game.actorList g))%nat) by by eapply lookup_lt_Some.
  assert (Hcons : Game.consistent
            {| Game.map := Game.map g;
               Game.actorList := <[ref := Game.moveTo actor nx ny]> (Game.actorList g);
               Game.actorMap :=
                 <[(nx, ny) := ref]> (delete (Game.x actor, Game.y actor) (Game.actorMap g));
               Game.player := Game.player g; Game.players := Game.players g;
               Game.lastMove := Some now; Game.winner := Game.winner g;
               Game.isGameOver := Game.isGameOver g; Game.gameTime := Game.gameTime g |}).
  { split; cbn.
    - intros i a Hi. destruct (decide (i = ref)) as [-> | Hne].
      + rewrite list_lookup_insert_eq in Hi by done. injection Hi as <-. cbn.
        apply lookup_insert_eq.
      + rewrite list_lookup_insert_ne in Hi by done.
        pose proof (Hlist _ _ Hi) as Hia. pose proof (Hlist _ _ Ha) as Href.
        rewrite lookup_insert_ne by (intros Heq; rewrite <- Heq in Hia; congruence).
        rewrite lookup_delete_ne by (intros Heq; rewrite <- Heq in Hia; congruence).
        exact Hia.
    - intros k i Hk. destruct (decide (k = (nx, ny))) as [-> | Hne].
      + rewrite lookup_insert_eq in Hk. injection Hk as <-.
        exists (Game.moveTo actor nx ny). split; [by apply list_lookup_insert_eq|done].
      + rewrite lookup_insert_ne in Hk by done.
        apply lookup_delete_Some in Hk as [Hnk Hk].
        destruct (Hmap _ _ Hk) as (a0 & Ha0 & Hpos).
        exists a0. split; [|done].
        rewrite list_lookup_insert_ne; [done|].
        intros ->. rewrite Ha in Ha0. injection Ha0 as <-. congruence. }
  split; [exact Hcons|].
  destruct Hcons as [Hlist' _]. cbn in Hlist'. cbn.
  intros i j a b Hi Hj Hpos.
  pose proof (Hlist' _ _ Hi) as H1. pose proof (Hlist' _ _ Hj) as H2.
  rewrite Hpos in H1. congruence.
Qed.

(** X20. Moves are throttled per game, not per actor: after a successful
    move at a non-zero clock value, no move of any actor in any direction
    succeeds while less than 1000 ms have passed since. *)
Theorem moves_are_throttled g actorId direction now g1 actorId' direction' now' :
  moveActor g actorId direction now = Game.Success g1 ->
  now <> 0 ->
  now' - now < 1000 ->
  forall g2, moveActor g1 actorId' direction' now' <> Game.Success g2.
Proof.
  intros Hmove Hnz Hsoon g2 Hmove2.
  destruct (moveActor_success_inv _ _ _ _ _ Hmove)
    as (ref & actor & dx & dy & column & _ & _ & _ & _ & _ & _ & _ & _ & _ & ->).
  destruct (moveActor_success_inv _ _ _ _ _ Hmove2)
    as (? & ? & ? & ? & ? & _ & _ & _ & _ & _ & _ & _ & Hfast & _).
  cbn in Hfast. apply andb_false_iff in Hfast as [Hz | Hlt].
  - apply negb_false_iff, Z.eqb_eq in Hz. done.
  - apply Z.ltb_ge in Hlt. lia.
Qed.


End Movement.

(** ** The room manager *)

Section RoomProps.

Context {K : Type} `{Countable K}.
Variable getAddress : string -> option string.

Local Abbreviation joinRoom := (Rooms.joinRoom getAddress).
Local Abbreviation leaveRoom := (Rooms.leaveRoom getAddress).

(** What a successful join did. *)
Lemma joinRoom_success_inv (roomId : K) eoa ws (m : Rooms.t K) r ready m' :
  joinRoom roomId eoa ws m = (Rooms.Joined r ready, m') ->
  exists f room,
    getAddress eoa = Some f
    /\ Rooms.rooms m !! roomId = Some room
    /\ (Rooms.addressToRoom m !! f = None \/ Rooms.addressToRoom m !! f = Some roomId)
    /\ r = roomId /\ ready = Rooms.isReady room
    /\ Rooms.rooms m' =
         <[roomId := {| Rooms.id := Rooms.id room; Rooms.host := Some f;
                        Rooms.connections := <[f := ws]> (Rooms.connections room);
                        Rooms.gameState := Rooms.gameState room;
                        Rooms.isReady := Rooms.isReady room;
                        Rooms.createdAt := Rooms.createdAt room;
                        Rooms.playereoa := Rooms.playereoa room |}]> (Rooms.rooms m)
    /\ Rooms.addressToRoom m' = <[f := roomId]> (Rooms.addressToRoom m)
    /\ Rooms.sockets m' =
         Rooms.setSocket ws
           {| Rooms.ws_id := roomId;
              Rooms.readyState := Rooms.readyState (Rooms.sockets m ws);
              Rooms.outbox := Rooms.outbox (Rooms.sockets m ws) |} (Rooms.sockets m).
Proof.
  unfold Rooms.joinRoom.
  destruct (getAddress eoa) as [f|] eqn:Hf; [|discriminate].
  destruct (Rooms.rooms m !! roomId) as [room|] eqn:Hr; [|discriminate].
  destruct (Rooms.addressToRoom m !! f) as [existing|] eqn:Hb.
  - destruct (bool_decide (existing = roomId)) eqn:He; cbn; [|discriminate].
    apply bool_decide_eq_true_1 in He. subst existing.
    intros [= <- <- <-]. exists f, room. cbn. repeat split; eauto.
  - intros [= <- <- <-]. exists f, room. cbn. repeat split; eauto.
Qed.

(** X22. [joinRoom] succeeds exactly when the address is valid, the room
    exists and the canonical address is bound to no room or to this very
    room; in every other case the manager is left as it was. *)
Theorem join_succeeds_iff (roomId : K) eoa ws (m : Rooms.t K) :
  ((exists ready m', joinRoom roomId eoa ws m = (Rooms.Joined roomId ready, m'))
   <-> exists f,
         getAddress eoa = Some f
         /\ is_Some (Rooms.rooms m !! roomId)
         /\ (Rooms.addressToRoom m !! f = None
             \/ Rooms.addressToRoom m !! f = Some roomId))
  /\ ((forall r ready, fst (joinRoom roomId eoa ws m) <> Rooms.Joined r ready) ->
      snd (joinRoom roomId eoa ws m) = m).
Proof.
  split; [split|].
  - intros (ready & m' & Hj).
    destruct (joinRoom_success_inv _ _ _ _ _ _ _ Hj) as (f & room & Hf & Hr & Hb & _).
    exists f. rewrite Hr. eauto.
  - intros (f & Hf & [room Hr] & Hb). unfold Rooms.joinRoom. rewrite Hf, Hr.
    destruct Hb as [-> | ->]; [eauto|].
    rewrite bool_decide_eq_true_2 by done. cbn. eauto.
  - unfold Rooms.joinRoom.
    destruct (getAddress eoa) as [f|]; [|done].
    destruct (Rooms.rooms m !! roomId) as [room|]; [|done].
    destruct (match Rooms.addressToRoom m !! f with
              | Some existingRoomId => negb (bool_decide (existingRoomId = roomId))
              | None => false
              end); [done|].
    cbn. intros Hne. by destruct (Hne roomId (Rooms.isReady room)).
Qed.

(** X23. A successful join binds the canonical address to the room, files
    the socket under it in the room's connections (replacing the socket of
    an earlier join of the same address), makes the address the room's
    host whoever was host before, and stamps the room id on the socket.
    Connections of other addresses in the room, other rooms and the
    bindings of other addresses are untouched. *)
Theorem join_binds (roomId : K) eoa ws (m : Rooms.t K) ready m' :
  joinRoom roomId eoa ws m = (Rooms.Joined roomId ready, m') ->
  exists f room room',
    getAddress eoa = Some f
    /\ Rooms.rooms m !! roomId = Some room
    /\ Rooms.rooms m' !! roomId = Some room'
    /\ Rooms.addressToRoom m' !! f = Some roomId
    /\ Rooms.connections room' !! f = Some ws
    /\ Rooms.host room' = Some f
    /\ Rooms.ws_id (Rooms.sockets m' ws) = roomId
    /\ Rooms.gameState room' = Rooms.gameState room
    /\ (forall a, a <> f ->
          Rooms.connections room' !! a = Rooms.connections room !! a
          /\ Rooms.addressToRoom m' !! a = Rooms.addressToRoom m !! a)
    /\ (forall r, r <> roomId -> Rooms.rooms m' !! r = Rooms.rooms m !! r).
Proof.
  intros Hj.
  destruct (joinRoom_success_inv _ _ _ _ _ _ _ Hj)
    as (f & room & Hf & Hr & _ & _ & _ & Hrooms & Haddr & Hsock).
  exists f, room. eexists. split; [done|]. split; [done|].
  rewrite Hrooms, Haddr, Hsock. split; [apply lookup_insert_eq|]. cbn.
  split; [apply lookup_insert_eq|]. split; [apply lookup_insert_eq|].
  split; [reflexivity|].
  split; [unfold Rooms.setSocket; by rewrite bool_decide_eq_true_2|].
  split; [reflexivity|]. split.
  - intros a Ha. split; apply lookup_insert_ne; congruence.
  - intros r Hne. apply lookup_insert_ne. congruence.
Qed.

(** X24. An identity is connected in at most one room. The manager keeps
    "an address connected in a room is bound to that room" through room
    creation, joins, leaves, broadcasts and room closure, so an address
    found in the connections of two rooms means they are one room. *)
Theorem connections_follow_bindings (m : Rooms.t K) :
  Rooms.connectedIsBound m ->
  (forall ws now, Rooms.connectedIsBound (snd (Rooms.createRoom ws now m)))
  /\ (forall roomId eoa ws, Rooms.connectedIsBound (snd (joinRoom roomId eoa ws m)))
  /\ (forall eoa, Rooms.connectedIsBound (snd (leaveRoom eoa m)))
  /\ (forall roomId type data,
        Rooms.connectedIsBound (Rooms.broadcastToRoom roomId type data m))
  /\ (forall roomId, Rooms.connectedIsBound (Rooms.closeRoom roomId m))
  /\ (forall r1 r2 room1 room2 a,
        Rooms.rooms m !! r1 = Some room1 -> Rooms.rooms m !! r2 = Some room2 ->
        is_Some (Rooms.connections room1 !! a) ->
        is_Some (Rooms.connections room2 !! a) ->
        r1 = r2).
Proof.
  intros Hinv. unfold Rooms.connectedIsBound in *.
  split; [|split; [|split; [|split; [|split]]]].
  - intros ws now r room a s. cbn.
    destruct (decide (r = Rooms.ws_id (Rooms.sockets m ws))) as [-> | Hne].
    + rewrite lookup_insert_eq. intros [= <-]. cbn. by rewrite lookup_empty.
    + rewrite lookup_insert_ne by congruence. apply Hinv.
  - intros roomId eoa ws. unfold Rooms.joinRoom.
    destruct (getAddress eoa) as [f|]; [|exact Hinv].
    destruct (Rooms.rooms m !! roomId) as [room|] eqn:Hr; [|exact Hinv].
    destruct (Rooms.addressToRoom m !! f) as [existing|] eqn:Hb.
    + destruct (bool_decide (existing = roomId)) eqn:He; cbn; [|exact Hinv].
      apply bool_decide_eq_true_1 in He. subst existing.
      intros r room0 a s.
      destruct (decide (r = roomId)) as [-> | Hne].
      * rewrite lookup_insert_eq. intros [= <-]. cbn.
        destruct (decide (a = f)) as [-> | Ha].
        -- intros _. apply lookup_insert_eq.
        -- rewrite !lookup_insert_ne by congruence. by apply Hinv.
      * rewrite lookup_insert_ne by congruence. intros Hr0 Hc.
        pose proof (Hinv _ _ _ _ Hr0 Hc) as Hbound.
        destruct (decide (a = f)) as [-> | Ha]; [congruence|].
        by rewrite lookup_insert_ne by congruence.
    + cbn. intros r room0 a s.
      destruct (decide (r = roomId)) as [-> | Hne].
      * rewrite lookup_insert_eq. intros [= <-]. cbn.
        destruct (decide (a = f)) as [-> | Ha].
        -- intros _. apply lookup_insert_eq.
        -- rewrite !lookup_insert_ne by congruence. by apply Hinv.
      * rewrite lookup_insert_ne by congruence. intros Hr0 Hc.
        pose proof (Hinv _ _ _ _ Hr0 Hc) as Hbound.
        destruct (decide (a = f)) as [-> | Ha]; [congruence|].
        by rewrite lookup_insert_ne by congruence.
  - intros eoa. unfold Rooms.leaveRoom.
    destruct (getAddress eoa) as [f|]; [|exact Hinv].
    destruct (Rooms.addressToRoom m !! f) as [rid|] eqn:Hb; [|exact Hinv].
    cbn. intros r room0 a s Hr0 Hc.
    assert (Hold : exists room1 s1,
               Rooms.rooms m !! r = Some room1
               /\ (a <> f -> Rooms.connections room1 !! a = Some s1)
               /\ (a = f -> r <> rid /\ Rooms.connections room1 !! a = Some s1)).
    { destruct (Rooms.rooms m !! rid) as [room|] eqn:Hrid.
      - destruct (negb (truthy_str (Rooms.playereoa room))).
        + apply lookup_delete_Some in Hr0 as [Hne Hr0].
          exists room0, s. split; [done|]. split; [done|]. intros _. split; [congruence|done].
        + destruct (decide (r = rid)) as [-> | Hne].
          * rewrite lookup_insert_eq in Hr0. injection Hr0 as <-. cbn in Hc.
            apply lookup_delete_Some in Hc as [Ha Hc].
            exists room, s. split; [done|]. split; [done|]. intros ->. done.
          * rewrite lookup_insert_ne in Hr0 by congruence.
            exists room0, s. split; [done|]. split; [done|]. intros _. split; done.
      - exists room0, s. split; [done|]. split; [done|]. intros ->. split; [|done].
        intros ->. congruence. }
    destruct Hold as (room1 & s1 & Hr1 & Hother & Hself).
    destruct (decide (a = f)) as [-> | Ha].
    + destruct (Hself eq_refl) as [Hne Hc1].
      pose proof (Hinv _ _ _ _ Hr1 Hc1). congruence.
    + rewrite lookup_delete_ne by congruence. eapply Hinv; [exact Hr1|by apply Hother].
  - intros roomId type data. unfold Rooms.broadcastToRoom.
    destruct (Rooms.rooms m !! roomId) as [room|]; [|exact Hinv]. cbn. exact Hinv.
  - intros roomId. unfold Rooms.closeRoom.
    destruct (Rooms.rooms m !! roomId) as [room|]; [|exact Hinv]. cbn.
    intros r room0 a s [_ Hr0]%lookup_delete_Some. by apply Hinv.
  - intros r1 r2 room1 room2 a Hr1 Hr2 [s1 Hc1] [s2 Hc2].
    pose proof (Hinv _ _ _ _ Hr1 Hc1). pose proof (Hinv _ _ _ _ Hr2 Hc2). congruence.
Qed.

(** X25. Closing a room does not unbind its players: after [closeRoom]
    the address is still bound to the deleted room, so joining another
    room is refused with "Player already in another room" and joining the
    closed one with "Room not found"; only after [leaveRoom] can the
    address join again. *)
Theorem closed_room_keeps_bindings (r r' : K) eoa f ws (m : Rooms.t K) room' :
  getAddress eoa = Some f ->
  Rooms.addressToRoom m !! f = Some r ->
  r' <> r ->
  Rooms.rooms m !! r' = Some room' ->
  let m1 := Rooms.closeRoom r m in
  Rooms.addressToRoom m1 !! f = Some r
  /\ Rooms.rooms m1 !! r = None
  /\ joinRoom r' eoa ws m1 = (Rooms.JoinFailed "Player already in another room", m1)
  /\ joinRoom r eoa ws m1 = (Rooms.JoinFailed "Room not found", m1)
  /\ fst (leaveRoom eoa m1) = Rooms.Left r
  /\ fst (joinRoom r' eoa ws (snd (leaveRoom eoa m1)))
     = Rooms.Joined r' (Rooms.isReady room').
Proof.
  intros Hf Hb Hne Hr' m1.
  assert (Haddr : Rooms.addressToRoom m1 = Rooms.addressToRoom m).
  { subst m1. unfold Rooms.closeRoom. by destruct (Rooms.rooms m !! r). }
  assert (Hgone : Rooms.rooms m1 !! r = None).
  { subst m1. unfold Rooms.closeRoom.
    destruct (Rooms.rooms m !! r) eqn:Hr; cbn; [apply lookup_delete_eq|done]. }
  assert (Hkept : Rooms.rooms m1 !! r' = Some room').
  { subst m1. unfold Rooms.closeRoom.
    destruct (Rooms.rooms m !! r) eqn:Hr; cbn; [|done].
    by rewrite lookup_delete_ne by congruence. }
  clearbody m1.
  split; [by rewrite Haddr|]. split; [done|].
  split; [|split; [|split]].
  - unfold Rooms.joinRoom. rewrite Hf, Hkept, Haddr, Hb.
    by rewrite bool_decide_eq_false_2 by congruence.
  - unfold Rooms.joinRoom. by rewrite Hf, Hgone.
  - unfold Rooms.leaveRoom. by rewrite Hf, Haddr, Hb.
  - unfold Rooms.leaveRoom. rewrite Hf, Haddr, Hb, Hgone. cbn.
    unfold Rooms.joinRoom. cbn. rewrite Hf, Hkept. by rewrite lookup_delete_eq.
Qed.

Lemma setSocket_lookup (socks : nat -> Rooms.Socket K) ws s h :
  Rooms.setSocket ws s socks h = if bool_decide (h = ws) then s else socks h.
Proof. reflexivity. Qed.

(** X26. A broadcast reaches the open sockets connected in the room and
    no other: each socket's outbox grows by copies of the message only,
    by at least one copy exactly when the socket is open and some address
    of the room is connected through it; closed sockets are skipped. No
    socket changes state or id, rooms and bindings are untouched, and a
    broadcast to an unknown room does nothing. *)
Theorem broadcast_reaches_open_connections (roomId : K) type data (m : Rooms.t K) :
  let m' := Rooms.broadcastToRoom roomId type data m in
  Rooms.rooms m' = Rooms.rooms m
  /\ Rooms.addressToRoom m' = Rooms.addressToRoom m
  /\ (Rooms.rooms m !! roomId = None -> m' = m)
  /\ (forall room, Rooms.rooms m !! roomId = Some room ->
        forall h,
          Rooms.readyState (Rooms.sockets m' h) = Rooms.readyState (Rooms.sockets m h)
          /\ Rooms.ws_id (Rooms.sockets m' h) = Rooms.ws_id (Rooms.sockets m h)
          /\ exists n,
               Rooms.outbox (Rooms.sockets m' h)
               = (Rooms.outbox (Rooms.sockets m h) ++ replicate n (type, data))%list
               /\ ((0 < n)%nat <->
                   Rooms.readyState (Rooms.sockets m h) = 1
                   /\ exists a, Rooms.connections room !! a = Some h)).
Proof.
  intros m'. subst m'. unfold Rooms.broadcastToRoom.
  destruct (Rooms.rooms m !! roomId) as [room|] eqn:Hr; [|repeat split; done].
  cbn. split; [done|]. split; [done|]. split; [done|].
  intros ? [= <-].
  set (f := fun (_ : string) (ws : nat) (socks : nat -> Rooms.Socket K) =>
              if Rooms.readyState (socks ws) =? 1
              then Rooms.send ws (type, data) socks else socks).
  apply (map_fold_weak_ind
           (fun (r : nat -> Rooms.Socket K) (conns : gmap string nat) =>
              forall h,
                Rooms.readyState (r h) = Rooms.readyState (Rooms.sockets m h)
                /\ Rooms.ws_id (r h) = Rooms.ws_id (Rooms.sockets m h)
                /\ exists n,
                     Rooms.outbox (r h)
                     = (Rooms.outbox (Rooms.sockets m h) ++ replicate n (type, data))%list
                     /\ ((0 < n)%nat <->
                         Rooms.readyState (Rooms.sockets m h) = 1
                         /\ exists a, conns !! a = Some h)) f).
  - intros h. split; [done|]. split; [done|]. exists 0%nat. cbn.
    rewrite app_nil_r. split; [done|]. split; [lia|].
    intros [_ [a Ha]]. by rewrite lookup_empty in Ha.
  - intros a ws conns r Hfresh IH h. unfold f.
    destruct (IH h) as (Hst & Hid & n & Hout & Hn).
    destruct (IH ws) as (Hstw & _ & _).
    destruct (Rooms.readyState (r ws) =? 1) eqn:Hopen.
    + apply Z.eqb_eq in Hopen. unfold Rooms.send. rewrite setSocket_lookup.
      case_bool_decide as Hh; cbn.
      * subst h. split; [done|]. split; [done|]. exists (S n).
        rewrite Hout, <- app_assoc. split.
        { f_equal. change [(type, data)] with (replicate 1 (type, data)).
          rewrite <- replicate_add. f_equal. lia. }
        split; [|lia]. intros _. split; [congruence|].
        exists a. apply lookup_insert_eq.
      * split; [done|]. split; [done|]. exists n. split; [done|].
        rewrite Hn. split; intros [Ho [a' Ha']]; (split; [done|]).
        -- exists a'. rewrite lookup_insert_ne; [done|]. intros ->. congruence.
        -- exists a'. destruct (decide (a = a')) as [-> | Hne].
           ++ rewrite lookup_insert_eq in Ha'. congruence.
           ++ by rewrite lookup_insert_ne in Ha' by done.
    + apply Z.eqb_neq in Hopen.
      split; [done|]. split; [done|]. exists n. split; [done|].
      rewrite Hn. split; intros [Ho [a' Ha']]; (split; [done|]).
      * exists a'. rewrite lookup_insert_ne; [done|]. intros ->. congruence.
      * destruct (decide (a = a')) as [-> | Hne].
        -- rewrite lookup_insert_eq in Ha'. injection Ha' as ->. congruence.
        -- exists a'. by rewrite lookup_insert_ne in Ha' by done.
Qed.

(** X27. [closeRoom] leaves none of the room's connections open: every
    socket connected in the room is closing or closed afterwards, sockets
    outside the room are as before, nothing is sent, and the room is
    deleted while other rooms stay. Closing again, or closing a room that
    does not exist, changes nothing. *)
Theorem closeRoom_closes_every_connection (roomId : K) (m : Rooms.t K) :
  let m' := Rooms.closeRoom roomId m in
  Rooms.rooms m' !! roomId = None
  /\ (forall r, r <> roomId -> Rooms.rooms m' !! r = Rooms.rooms m !! r)
  /\ Rooms.closeRoom roomId m' = m'
  /\ (Rooms.rooms m !! roomId = None -> m' = m)
  /\ (forall room, Rooms.rooms m !! roomId = Some room ->
        forall h,
          Rooms.outbox (Rooms.sockets m' h) = Rooms.outbox (Rooms.sockets m h)
          /\ ((exists a, Rooms.connections room !! a = Some h) ->
              Rooms.readyState (Rooms.sockets m' h) <> 1)
          /\ ((forall a, Rooms.connections room !! a <> Some h) ->
              Rooms.sockets m' h = Rooms.sockets m h)).
Proof.
  intros m'.
  assert (Hgone : Rooms.rooms m' !! roomId = None).
  { subst m'. unfold Rooms.closeRoom.
    destruct (Rooms.rooms m !! roomId) eqn:Hr; cbn; [apply lookup_delete_eq|done]. }
  split; [exact Hgone|]. split; [|split; [|split]].
  - intros r Hne. subst m'. unfold Rooms.closeRoom.
    destruct (Rooms.rooms m !! roomId); cbn; [|done].
    apply lookup_delete_ne. congruence.
  - unfold Rooms.closeRoom at 1. by rewrite Hgone.
  - intros Hr. subst m'. unfold Rooms.closeRoom. by rewrite Hr.
  - intros room Hr. subst m'. unfold Rooms.closeRoom. rewrite Hr. cbn.
    apply (map_fold_weak_ind
             (fun (r : nat -> Rooms.Socket K) (conns : gmap string nat) =>
                forall h,
                  Rooms.outbox (r h) = Rooms.outbox (Rooms.sockets m h)
                  /\ ((exists a, conns !! a = Some h) -> Rooms.readyState (r h) <> 1)
                  /\ ((forall a, conns !! a <> Some h) -> r h = Rooms.sockets m h))
             (fun (_ : string) ws socks => Rooms.close ws socks)).
    + intros h. split; [done|]. split; [|done].
      intros [a Ha]. by rewrite lookup_empty in Ha.
    + intros a ws conns r Hfresh IH h.
      destruct (IH h) as (Hout & Hclosed & Hsame).
      assert (Hcl : forall h0,
                 Rooms.outbox (Rooms.close ws r h0) = Rooms.outbox (r h0)
                 /\ (h0 = ws -> Rooms.readyState (Rooms.close ws r h0) <> 1)
                 /\ (h0 <> ws -> Rooms.close ws r h0 = r h0)
                 /\ (Rooms.readyState (r h0) <> 1 ->
                     Rooms.readyState (Rooms.close ws r h0) <> 1)).
      { intros h0. unfold Rooms.close.
        destruct ((Rooms.readyState (r ws) =? 2) || (Rooms.readyState (r ws) =? 3)) eqn:Hs.
        - split; [done|]. split; [|done].
          intros ->. apply orb_true_iff in Hs as [?%Z.eqb_eq | ?%Z.eqb_eq]; lia.
        - rewrite setSocket_lookup. case_bool_decide; cbn; subst; repeat split; done. }
      destruct (Hcl h) as (Ho & Hws & Hother & Hkeep).
      split; [by rewrite Ho|]. split.
      * intros [a' Ha']. destruct (decide (a = a')) as [-> | Hne].
        -- rewrite lookup_insert_eq in Ha'. injection Ha' as ->. by apply Hws.
        -- rewrite lookup_insert_ne in Ha' by done. apply Hkeep, Hclosed. eauto.
      * intros Hno. assert (h <> ws) as Hh.
        { intros ->. apply (Hno a). apply lookup_insert_eq. }
        rewrite (Hother Hh). apply Hsame. intros a' Ha'. apply (Hno a').
        rewrite lookup_insert_ne; [done|]. intros ->. congruence.
Qed.

End RoomProps.

(** ** The wrap-around grid *)

Section SnakeGrid.

Variables GRID_WIDTH GRID_HEIGHT : Z.
Hypothesis width_pos : 0 < GRID_WIDTH.
Hypothesis height_pos : 0 < GRID_HEIGHT.

Local Abbreviation calculateNewHead := (Snake.calculateNewHead GRID_WIDTH GRID_HEIGHT).
Local Abbreviation inGrid := (Snake.inGrid GRID_WIDTH GRID_HEIGHT).

Ltac snake_cases :=
  repeat match goal with
    | |- context [if ?b then _ else _] => destruct b eqn:?
    | H : context [if ?b then _ else _] |- _ => destruct b eqn:?
    end;
  simplify_eq; cbn in *;
  repeat match goal with
    | H : (_ <? _) = true |- _ => apply Z.ltb_lt in H
    | H : (_ <? _) = false |- _ => apply Z.ltb_ge in H
    | H : (_ >=? _) = true |- _ => apply Z.geb_le in H
    | H : (_ >=? _) = false |- _ => rewrite Z.geb_leb in H; apply Z.leb_gt in H
    end.

(** X28. The head never leaves the grid: from a cell inside the grid,
    [calculateNewHead] in any of the four directions yields a cell inside
    the grid, stepping off an edge re-enters on the opposite edge, and any
    other direction string raises instead of yielding a position. *)
Theorem new_head_stays_in_grid head direction :
  inGrid head ->
  (forall p, calculateNewHead head direction = Some p -> inGrid p)
  /\ (calculateNewHead head direction = None <->
      direction <> "UP" /\ direction <> "DOWN" /\ direction <> "LEFT"
      /\ direction <> "RIGHT")
  /\ (Snake.x head = 0 ->
      calculateNewHead head "LEFT"
      = Some {| Snake.x := GRID_WIDTH - 1; Snake.y := Snake.y head |})
  /\ (Snake.x head = GRID_WIDTH - 1 ->
      calculateNewHead head "RIGHT" = Some {| Snake.x := 0; Snake.y := Snake.y head |})
  /\ (Snake.y head = 0 ->
      calculateNewHead head "UP"
      = Some {| Snake.x := Snake.x head; Snake.y := GRID_HEIGHT - 1 |})
  /\ (Snake.y head = GRID_HEIGHT - 1 ->
      calculateNewHead head "DOWN" = Some {| Snake.x := Snake.x head; Snake.y := 0 |}).
Proof.
  intros [Hx Hy]. unfold Snake.inGrid, Snake.calculateNewHead.
  split; [|split; [|split; [|split; [|split]]]].
  - intros p.
    destruct (String.eqb direction "UP"); [|destruct (String.eqb direction "DOWN");
      [|destruct (String.eqb direction "LEFT"); [|destruct (String.eqb direction "RIGHT")]]];
      cbn; intros Hp; simplify_eq; cbn; snake_cases; lia.
  - destruct (String.eqb_spec direction "UP"); [split; [discriminate|tauto]|].
    destruct (String.eqb_spec direction "DOWN"); [split; [discriminate|tauto]|].
    destruct (String.eqb_spec direction "LEFT"); [split; [discriminate|tauto]|].
    destruct (String.eqb_spec direction "RIGHT"); [split; [discriminate|tauto]|].
    split; [tauto|reflexivity].
  - intros H0. cbn. snake_cases; try lia. do 2 f_equal.
  - intros H0. cbn. snake_cases; try lia. do 2 f_equal.
  - intros H0. cbn. snake_cases; try lia. do 2 f_equal.
  - intros H0. cbn. snake_cases; try lia. do 2 f_equal.
Qed.

Lemma steps_right n head :
  inGrid head ->
  Snake.steps GRID_WIDTH GRID_HEIGHT n "RIGHT" head
  = Some {| Snake.x := (Snake.x head + Z.of_nat n) mod GRID_WIDTH; Snake.y := Snake.y head |}.
Proof.
  revert head. induction n as [|n IH]; intros [hx hy] [Hx Hy]; cbn in *.
  - rewrite Z.add_0_r, Z.mod_small by lia. reflexivity.
  - unfold Snake.calculateNewHead. cbn.
    assert (Hnext : (if hx + 1 <? 0 then GRID_WIDTH - 1
                     else if hx + 1 >=? GRID_WIDTH then 0 else hx + 1)
                    = (hx + 1) mod GRID_WIDTH).
    { snake_cases; try lia.
      - replace (hx + 1) with GRID_WIDTH by lia. by rewrite Z.mod_same by lia.
      - by rewrite Z.mod_small by lia. }
    assert (Hy' : (if hy <? 0 then GRID_HEIGHT - 1
                   else if hy >=? GRID_HEIGHT then 0 else hy) = hy)
      by (snake_cases; lia).
    rewrite Hnext, Hy'. rewrite IH.
    + cbn. f_equal. f_equal. rewrite Z.add_mod_idemp_l by lia. f_equal. lia.
    + split; cbn; [|done]. apply Z.mod_pos_bound. lia.
Qed.

(** X29. On the wrap-around grid a step is undone by the step in the
    opposite direction, also across an edge, and as many steps to the
    right as the grid is wide lead back to the starting cell. *)
Theorem opposite_step_returns head direction p :
  inGrid head ->
  calculateNewHead head direction = Some p ->
  calculateNewHead p (Snake.opposite direction) = Some head
  /\ Snake.steps GRID_WIDTH GRID_HEIGHT (Z.to_nat GRID_WIDTH) "RIGHT" head = Some head.
Proof.
  intros Hin Hp. split.
  - destruct Hin as [Hx Hy]. destruct head as [hx hy]. cbn in *.
    unfold Snake.calculateNewHead, Snake.opposite in *. cbn in *.
    destruct (String.eqb direction "UP"); [|destruct (String.eqb direction "DOWN");
      [|destruct (String.eqb direction "LEFT"); [|destruct (String.eqb direction "RIGHT")]]];
      cbn in *; simplify_eq; cbn; snake_cases; try lia; f_equal; f_equal; lia.
  - rewrite (steps_right _ _ Hin). destruct head as [hx hy]. destruct Hin as [Hx Hy].
    cbn in *. f_equal. f_equal. rewrite Z2Nat.id by lia.
    rewrite <- Z.add_mod_idemp_r, Z.mod_same, Z.add_0_r by lia.
    by rewrite Z.mod_small by lia.
Qed.

End SnakeGrid.

(** ** The game-over handler *)

(** X30. The game-over handler never throws into the polling loop:
    whatever the room, the winner, the client and the ledger do, it
    returns normally. It leaves the world alone when the room or the
    stored session is missing; otherwise pending sessions are untouched
    and the room's active session is either still stored or deleted. When
    the game names [player1] and the room's host is the session's first
    player, the close attempt dies on the unbound [totalPot]: nothing is
    sent and the session stays stored. *)
Theorem gameover_handler_never_throws getAddress env roomId gameWinner rooms w :
  exists w',
    handleGameOverAppSession getAddress env roomId gameWinner rooms w = (Returned tt, w')
    /\ pendingAppSessions w' = pendingAppSessions w
    /\ (roomAppSessions w' = roomAppSessions w
        \/ roomAppSessions w' = delete roomId (roomAppSessions w))
    /\ (Rooms.rooms rooms !! roomId = None \/ roomAppSessions w !! roomId = None -> w' = w)
    /\ (forall room session h,
          Rooms.rooms rooms !! roomId = Some room ->
          roomAppSessions w !! roomId = Some session ->
          gameWinner = Some "player1" ->
          Rooms.host room = Some h ->
          h <> EmptyString ->
          getAddress h = Some (Active.participantA session) ->
          Active.participantA session <> EmptyString ->
          clientInitialized env = true ->
          connectSucceeds env = true ->
          w' = w).
Proof.
  unfold handleGameOverAppSession, hasAppSession, try_catch, bind, ret.
  destruct (Rooms.rooms rooms !! roomId) as [room|] eqn:Hroom.
  2: { exists w. split; [done|]. split; [done|]. split; [by left|].
       split; [done|]. intros; discriminate. }
  destruct (roomAppSessions w !! roomId) as [session|] eqn:Hs.
  2: { rewrite bool_decide_eq_false_2 by (intros [? ?]; done).
       exists w. split; [done|]. split; [done|]. split; [by left|].
       split; [done|]. intros; discriminate. }
  rewrite bool_decide_eq_true_2 by eauto.
  set (winnerEOA := if bool_decide (gameWinner = Some "player1")
                    then Rooms.host room else None).
  pose proof (close_cases getAddress env roomId winnerEOA w session Hs) as Hc.
  cbv zeta in Hc.
  assert (Hhost : forall h,
             gameWinner = Some "player1" -> Rooms.host room = Some h ->
             h <> EmptyString ->
             getAddress h = Some (Active.participantA session) ->
             Active.participantA session <> EmptyString ->
             clientInitialized env = true -> connectSucceeds env = true ->
             closeAppSession getAddress env roomId winnerEOA w
             = (Thrown (ReferenceError "totalPot"), w)).
  { intros h Hw Hh Hne Hga HA Hci Hcs. subst winnerEOA.
    rewrite bool_decide_eq_true_2 by done. rewrite Hh.
    unfold closeAppSession, payout. eff_unfold. cbn. rewrite Hs. cbn.
    rewrite Hci. cbn. rewrite Hcs. cbn.
    apply String.eqb_neq in Hne. rewrite Hne. cbn. rewrite Hga. cbn.
    apply String.eqb_neq in HA. rewrite HA. cbn.
    rewrite bool_decide_eq_true_2 by reflexivity. reflexivity. }
  destruct (closeAppSession getAddress env roomId winnerEOA w) as [out w1] eqn:Hclose.
  cbn [fst snd] in Hc.
  assert (Hstores : pendingAppSessions w1 = pendingAppSessions w
                    /\ (roomAppSessions w1 = roomAppSessions w
                        \/ roomAppSessions w1 = delete roomId (roomAppSessions w))).
  { destruct Hc as [(e & _ & ->) | (cd & _ & _ & [(e & _ & ->) | (_ & ->)])]; cbn;
      (split; [done|]); [by left | by left | by right]. }
  destruct Hstores as [Hpend Hact].
  exists w1. split; [by destruct out as [[]|e]|].
  split; [done|]. split; [done|]. split.
  - intros [? | ?]; done.
  - intros room0 session0 h [= <-] [= <-] Hw Hh Hne Hga HA Hci Hcs.
    specialize (Hhost h Hw Hh Hne Hga HA Hci Hcs). congruence.
Qed.

(** ** Worked examples for the further properties *)

(** Room [r2] of a world that already holds the pending session of room
    [r1]: the player address is canonicalised, the client is there and
    connected, the session-key address is canonicalised, the definition and
    the session data are built, and then signing throws. Nothing of the
    half-built proposal is kept. The same when the reconnect fails. *)
Lemma generate_failure_witness :
  generateAppSessionMessage exampleGetAddress failingCreateAppSessionMessage
    (exampleEnv []) "r2" addrB proposedWorld
  = (Thrown SigningFailed, proposedWorld)
  /\ generateAppSessionMessage exampleGetAddress exampleCreateAppSessionMessage
       laterEnv "r2" addrB proposedWorld
     = (Thrown ClientNotInitialized, proposedWorld).
Proof.
  split.
  - assert (Hout : fst (generateAppSessionMessage exampleGetAddress
                          failingCreateAppSessionMessage (exampleEnv []) "r2" addrB
                          proposedWorld) = Thrown SigningFailed)
      by (vm_compute; reflexivity).
    destruct (generateAppSessionMessage exampleGetAddress failingCreateAppSessionMessage
                (exampleEnv []) "r2" addrB proposedWorld) as [out w'] eqn:Hg.
    cbn [fst] in Hout. subst out. f_equal.
    exact (generate_failure_stores_nothing exampleGetAddress failingCreateAppSessionMessage
             (exampleEnv []) "r2" addrB proposedWorld _ _ Hg).
  - assert (Hout : fst (generateAppSessionMessage exampleGetAddress
                          exampleCreateAppSessionMessage laterEnv "r2" addrB
                          proposedWorld) = Thrown ClientNotInitialized)
      by (vm_compute; reflexivity).
    destruct (generateAppSessionMessage exampleGetAddress exampleCreateAppSessionMessage
                laterEnv "r2" addrB proposedWorld) as [out w'] eqn:Hg.
    cbn [fst] in Hout. subst out. f_equal.
    exact (generate_failure_stores_nothing exampleGetAddress exampleCreateAppSessionMessage
             laterEnv "r2" addrB proposedWorld _ _ Hg).
Defined.

Lemma fresh_proposal_witness :
  pendingAppSessions emptyWorld !! "r1" = None
  /\ exists fa srv pm,
       exampleGetAddress addrA = Some fa
       /\ exampleGetAddress (sessionKeyAddress (exampleEnv [])) = Some srv
       /\ exampleCreateAppSessionMessage (now (exampleEnv []))
            (prop_appSessionData (proposal_of proposedPending)) = Some pm
       /\ prop_participants (proposal_of proposedPending) = [fa; srv]
       /\ prop_appDefinition (proposal_of proposedPending) =
            {| protocol := "NitroRPC/0.4"; participants := [fa; srv]; weights := [0; 100];
               quorum := 100; challenge := 0; nonce := now (exampleEnv []) |}
       /\ definition (prop_appSessionData (proposal_of proposedPending))
          = prop_appDefinition (proposal_of proposedPending)
       /\ allocations (prop_appSessionData (proposal_of proposedPending))
          = [ {| participant := fa; asset := "usdc"; amount := "0" |} ]
       /\ prop_requestToSign (proposal_of proposedPending) = msg_req pm
       /\ collected "r1" proposedWorld = Some ∅
       /\ (forall other, other <> "r1" ->
             pendingAppSessions proposedWorld !! other = pendingAppSessions emptyWorld !! other)
       /\ roomAppSessions proposedWorld = roomAppSessions emptyWorld
       /\ wire proposedWorld = wire emptyWorld.
Proof.
  split; [reflexivity|].
  apply (fresh_proposal_shape exampleGetAddress exampleCreateAppSessionMessage
           (exampleEnv []) "r1" addrA emptyWorld).
  - reflexivity.
  - vm_compute. reflexivity.
Defined.

Lemma resign_witness :
  pendingAppSessions proposedWorld !! "r1" = Some proposedPending
  /\ collected "r1"
       (snd (addAppSessionSignature exampleGetAddress "r1" addrA (JStr sigOfB)
               (snd (addAppSessionSignature exampleGetAddress "r1" addrA (JStr sigOfA)
                       proposedWorld))))
     = Some (<[addrA := sigOfB]> (Pending.signatures proposedPending)).
Proof.
  split; [reflexivity|].
  apply (resign_overwrites exampleGetAddress "r1" addrA addrA addrA sigOfA sigOfB
           proposedWorld proposedPending); reflexivity.
Defined.

Lemma quorum_flag_witness :
  pendingAppSessions signedOnceWorld !! "r1" = Some signedOncePending
  /\ fst (addAppSessionSignature exampleGetAddress "r1" addrB (JStr sigOfB) signedOnceWorld)
     = Returned true
  /\ fst (createAppSessionWithSignatures (exampleEnv [ackCreated]) "r1"
            (snd (addAppSessionSignature exampleGetAddress "r1" addrB (JStr sigOfB)
                    signedOnceWorld)))
     = Returned "S1".
Proof.
  assert (Hp : pendingAppSessions signedOnceWorld !! "r1" = Some signedOncePending)
    by (vm_compute; reflexivity).
  assert (Htrue : fst (addAppSessionSignature exampleGetAddress "r1" addrB (JStr sigOfB)
                         signedOnceWorld) = Returned true)
    by (vm_compute; reflexivity).
  split; [exact Hp|]. split; [exact Htrue|].
  refine (proj2 (quorum_flag_opens_assembly exampleGetAddress (exampleEnv [ackCreated])
                   "r1" addrB addrB sigOfB signedOnceWorld signedOncePending
                   {| app_session_id := Some "S1"; appSessionId_camel := None |} "S1"
                   {| participant := addrA; asset := "usdc"; amount := "0" |}
                   Hp _ _ _ _ _ _ _ _ _) Htrue);
    try reflexivity. discriminate.
Defined.

Lemma third_signature_witness :
  pendingAppSessions quorumWorld !! "r1" = Some quorumPending
  /\ size (Pending.signatures quorumPending) = 2%nat
  /\ fst (addAppSessionSignature exampleGetAddress "r1" addrC (JStr "0xab") quorumWorld)
     = Returned false
  /\ (size <$> collected "r1"
        (snd (addAppSessionSignature exampleGetAddress "r1" addrC (JStr "0xab") quorumWorld)))
     = Some 3%nat.
Proof.
  assert (Hp : pendingAppSessions quorumWorld !! "r1" = Some quorumPending)
    by (vm_compute; reflexivity).
  assert (Hsz : size (Pending.signatures quorumPending) = 2%nat)
    by (vm_compute; reflexivity).
  split; [exact Hp|]. split; [exact Hsz|].
  pose proof (third_signature_closes_gate exampleGetAddress (exampleEnv []) "r1" addrC addrC
                "0xab" quorumWorld quorumPending Hp Hsz) as Hthird.
  cbv zeta in Hthird.
  destruct Hthird as (H1 & H2 & _); [reflexivity|vm_compute; reflexivity|reflexivity|].
  split; [exact H1|exact H2].
Defined.


Lemma close_outcome_witness :
  roomAppSessions activeWorld !! "r1" = Some activeSession
  /\ pendingAppSessions
       (snd (closeAppSession exampleGetAddress (exampleEnv []) "r1" None activeWorld))
     = pendingAppSessions activeWorld.
Proof.
  assert (Hs : roomAppSessions activeWorld !! "r1" = Some activeSession)
    by (vm_compute; reflexivity).
  split; [exact Hs|].
  exact (proj1 (close_deletes_only_on_ack exampleGetAddress (exampleEnv []) "r1" None
                  activeWorld activeSession Hs)).
Defined.

Lemma close_then_nothing_witness :
  roomAppSessions activeWorld !! "r1" = Some activeSession
  /\ closeAppSession exampleGetAddress (exampleEnv [ackClosed]) "r1" None activeWorld
     = (Returned tt, closedWorld)
  /\ closeAppSession exampleGetAddress (exampleEnv []) "r1" (Some addrA) closedWorld
     = (Returned tt, closedWorld)
  /\ submitAppState (exampleEnv []) "r1" 7 closedWorld = (Returned tt, closedWorld).
Proof.
  assert (Hs : roomAppSessions activeWorld !! "r1" = Some activeSession)
    by (vm_compute; reflexivity).
  assert (Hc : closeAppSession exampleGetAddress (exampleEnv [ackClosed]) "r1" None activeWorld
               = (Returned tt, closedWorld))
    by (vm_compute; reflexivity).
  split; [exact Hs|]. split; [exact Hc|].
  exact (close_then_nothing_left exampleGetAddress (exampleEnv [ackClosed]) (exampleEnv [])
           "r1" None (Some addrA) 7 activeWorld closedWorld activeSession Hs Hc).
Defined.

Lemma state_update_witness :
  roomAppSessions activeWorld !! "r1" = Some activeSession
  /\ exists new,
       wire (snd (submitAppState (exampleEnv []) "r1" 7 activeWorld))
       = (wire activeWorld ++ new)%list
       /\ (length new <= 1)%nat.
Proof.
  assert (Hs : roomAppSessions activeWorld !! "r1" = Some activeSession)
    by (vm_compute; reflexivity).
  split; [exact Hs|].
  destruct (state_update_keeps_balances (exampleEnv []) "r1" 7 activeWorld activeSession Hs)
    as (new & Hw & Hlen & _).
  exists new. split; [exact Hw|exact Hlen].
Defined.

Lemma addMove_witness :
  roomAppSessions activeWorld !! "r1" = Some activeSession
  /\ exampleGetAddress addrA = Some addrA
  /\ exists session',
       fst (addMoveToSession exampleGetAddress "r1" addrA "UP" 42 activeWorld) = Returned tt
       /\ Active.moves session' =
            (Active.moves activeSession ++
             [ {| player := addrA; direction := "UP"; move_timestamp := 42;
                  moveNumber := S (length (Active.moves activeSession)) |} ])%list.
Proof.
  assert (Hs : roomAppSessions activeWorld !! "r1" = Some activeSession)
    by (vm_compute; reflexivity).
  split; [exact Hs|]. split; [reflexivity|].
  destruct (proj2 (addMoveToSession_appends exampleGetAddress "r1" addrA "UP" 42
                     activeWorld activeSession Hs) addrA eq_refl)
    as (session' & Hret & _ & _ & _ & Hmoves & _).
  exists session'. split; [exact Hret|exact Hmoves].
Defined.

Lemma first_decisive_witness :
  awaitByMethod "close_app_session"
    [FOther; ackCreated; FErr 3 1 "insufficient funds"; ackClosed]
  = Thrown (LedgerError "close_app_session" "insufficient funds").
Proof.
  apply (first_decisive_frame_decides "close_app_session" [FOther; ackCreated]
           (FErr 3 1 "insufficient funds") [ackClosed]); reflexivity.
Defined.

Lemma newClient_below_counter : idsBelowCounter newClient.
Proof. intros id Hin. cbn in Hin. by apply not_elem_of_empty in Hin. Qed.

Lemma request_ids_witness :
  idsBelowCounter newClient
  /\ Client.nextRequestId newClient
     <= Client.nextRequestId
          (fst (clientRun [EvConnect; EvOpen true; EvSend true "get_channels";
                           EvSend true "ping"; EvTimer 1] newClient)).
Proof.
  split; [exact newClient_below_counter|].
  exact (proj1 (proj2 (request_ids_are_fresh
                         [EvConnect; EvOpen true; EvSend true "get_channels";
                          EvSend true "ping"; EvTimer 1]
                         newClient true "get_channels" newClient_below_counter))).
Defined.

Lemma settled_once_witness :
  idsBelowCounter newClient
  /\ (settlements 1%Z
        (snd (clientRun
                [EvConnect; EvOpen true; EvSend true "get_channels"; EvTimer 1%Z;
                 EvMessage {| Client.requestId := Some 1%Z; Client.isError := false;
                              Client.errorText := None; Client.result := "late" |};
                 EvTimer 1%Z] newClient)) <= 1)%nat.
Proof.
  split; [exact newClient_below_counter|].
  apply (request_settled_at_most_once _ newClient 1 newClient_below_counter).
Defined.

Lemma response_timer_witness :
  1 ∈ Client.pendingRequests busyClient
  /\ snd (clientRun
            [EvTimer 1;
             EvMessage {| Client.requestId := Some 1; Client.isError := false;
                          Client.errorText := None; Client.result := "late" |}] busyClient)
     = [Client.Reject 1 "Request timeout"].
Proof.
  assert (Hin : 1 ∈ Client.pendingRequests busyClient).
  { unfold busyClient. cbn. apply elem_of_union_r, elem_of_singleton. reflexivity. }
  split; [exact Hin|].
  exact (proj1 (proj2 (proj1 (response_timer_race busyClient
                                {| Client.requestId := Some 1; Client.isError := false;
                                   Client.errorText := None; Client.result := "late" |}
                                1 eq_refl) Hin))).
Defined.

(** The example game: the player steps up from (1, 1) to (1, 0). *)
Example exampleGame_moves :
  Game.moveActor 3 3 exampleGame "player" "UP" 5000 = Game.Success movedGame
  /\ Game.moveActor 3 3 exampleGame "player" "LEFT" 5000 = Game.Failure "Blocked by actor"
  /\ Game.moveActor 3 3 exampleGame "enemy_1" "LEFT" 5000 = Game.Failure "Out of bounds"
  /\ Game.moveActor 3 3 movedGame "player" "DOWN" 5999 = Game.Failure "TOO_FAST".
Proof. vm_compute. repeat split. Qed.

Lemma exampleGame_consistent : Game.consistent exampleGame.
Proof.
  split; cbn.
  - intros [|[|i]] a Hi; cbn in Hi; simplify_eq; cbn.
    + rewrite lookup_insert_ne by discriminate. apply lookup_insert_eq.
    + apply lookup_insert_eq.
  - intros k i Hk.
    destruct (decide (k = (0, 1))) as [-> | Hne1].
    + rewrite lookup_insert_eq in Hk. simplify_eq. by exists exampleEnemy.
    + rewrite lookup_insert_ne in Hk by done.
      destruct (decide (k = (1, 1))) as [-> | Hne2].
      * rewrite lookup_insert_eq in Hk. simplify_eq. by exists examplePlayer.
      * rewrite lookup_insert_ne in Hk by done. by rewrite lookup_empty in Hk.
Qed.

Lemma successful_move_witness :
  Game.moveActor 3 3 exampleGame "player" "UP" 5000 = Game.Success movedGame
  /\ exists ref actor actor' column,
       Game.findActor exampleGame "player" = Some ref
       /\ Game.actorList exampleGame !! ref = Some actor
       /\ Game.actorList movedGame !! ref = Some actor'
       /\ Z.abs (Game.x actor' - Game.x actor) + Z.abs (Game.y actor' - Game.y actor) = 1
       /\ 0 <= Game.x actor' < 3
       /\ 0 <= Game.y actor' < 3
       /\ Game.map exampleGame !! Z.to_nat (Game.x actor') = Some column
       /\ column !! Z.to_nat (Game.y actor') = Some 0
       /\ Game.actorMap exampleGame !! (Game.x actor', Game.y actor') = None
       /\ Game.actorMap movedGame !! (Game.x actor', Game.y actor') = Some ref
       /\ Game.hp actor' = Game.hp actor /\ Game.id actor' = Game.id actor
       /\ (forall j, j <> ref ->
             Game.actorList movedGame !! j = Game.actorList exampleGame !! j)
       /\ Game.map movedGame = Game.map exampleGame
       /\ Game.lastMove movedGame = Some 5000.
Proof.
  assert (Hm : Game.moveActor 3 3 exampleGame "player" "UP" 5000 = Game.Success movedGame)
    by (vm_compute; reflexivity).
  split; [exact Hm|].
  exact (successful_move_is_one_free_step 3 3 exampleGame "player" "UP" 5000 movedGame Hm).
Defined.

Lemma move_consistent_witness :
  Game.consistent exampleGame
  /\ Game.moveActor 3 3 exampleGame "player" "UP" 5000 = Game.Success movedGame
  /\ Game.consistent movedGame.
Proof.
  assert (Hm : Game.moveActor 3 3 exampleGame "player" "UP" 5000 = Game.Success movedGame)
    by (vm_compute; reflexivity).
  split; [exact exampleGame_consistent|]. split; [exact Hm|].
  exact (proj1 (move_keeps_index_consistent 3 3 exampleGame "player" "UP" 5000 movedGame
                  exampleGame_consistent Hm)).
Defined.

Lemma throttle_witness :
  Game.moveActor 3 3 exampleGame "player" "UP" 5000 = Game.Success movedGame
  /\ 5000 <> 0
  /\ 5999 - 5000 < 1000
  /\ forall g2, Game.moveActor 3 3 movedGame "enemy_1" "DOWN" 5999 <> Game.Success g2.
Proof.
  assert (Hm : Game.moveActor 3 3 exampleGame "player" "UP" 5000 = Game.Success movedGame)
    by (vm_compute; reflexivity).
  split; [exact Hm|]. split; [discriminate|]. split; [reflexivity|].
  apply (moves_are_throttled 3 3 exampleGame "player" "UP" 5000 movedGame
           "enemy_1" "DOWN" 5999 Hm); [discriminate|reflexivity].
Defined.


(** The example manager: two rooms, A joined to [roomA] through socket 0. *)
Example joinedManager_bindings :
  fst (Rooms.joinRoom exampleGetAddress "roomA" addrA 0 twoRooms) = Rooms.Joined "roomA" true
  /\ Rooms.addressToRoom joinedManager !! addrA = Some "roomA"
  /\ Rooms.rooms joinedManager !! "roomB" = Some roomB
  /\ fst (Rooms.joinRoom exampleGetAddress "roomB" addrA 1 joinedManager)
     = Rooms.JoinFailed "Player already in another room".
Proof. vm_compute. repeat split. Qed.

Lemma join_binds_witness :
  Rooms.joinRoom exampleGetAddress "roomA" addrA 0 twoRooms
  = (Rooms.Joined "roomA" true, joinedManager)
  /\ exists f room room',
       exampleGetAddress addrA = Some f
       /\ Rooms.rooms twoRooms !! "roomA" = Some room
       /\ Rooms.rooms joinedManager !! "roomA" = Some room'
       /\ Rooms.addressToRoom joinedManager !! f = Some "roomA"
       /\ Rooms.connections room' !! f = Some 0%nat
       /\ Rooms.host room' = Some f
       /\ Rooms.ws_id (Rooms.sockets joinedManager 0) = "roomA"
       /\ Rooms.gameState room' = Rooms.gameState room
       /\ (forall a, a <> f ->
             Rooms.connections room' !! a = Rooms.connections room !! a
             /\ Rooms.addressToRoom joinedManager !! a = Rooms.addressToRoom twoRooms !! a)
       /\ (forall r, r <> "roomA" ->
             Rooms.rooms joinedManager !! r = Rooms.rooms twoRooms !! r).
Proof.
  assert (Hj : Rooms.joinRoom exampleGetAddress "roomA" addrA 0 twoRooms
               = (Rooms.Joined "roomA" true, joinedManager)).
  { unfold joinedManager.
    destruct (Rooms.joinRoom exampleGetAddress "roomA" addrA 0 twoRooms) as [res m'] eqn:He.
    cbn [snd]. f_equal.
    change res with (fst (res, m')). rewrite <- He. vm_compute. reflexivity. }
  split; [exact Hj|].
  exact (join_binds exampleGetAddress "roomA" addrA 0 twoRooms true joinedManager Hj).
Defined.

Lemma emptyManager_bound : Rooms.connectedIsBound emptyManager.
Proof. intros r room a ws Hr. cbn in Hr. by rewrite lookup_empty in Hr. Qed.

(** The invariant at [joinedManager], where A is connected in [roomA] and
    bound to it: it is reached from the empty manager by two room creations
    and a join, it survives a second player's join, A's leave and the
    closure of A's room, and no other room has A among its connections. *)
Lemma bindings_invariant_witness :
  Rooms.connectedIsBound joinedManager
  /\ (exists room, Rooms.rooms joinedManager !! "roomA" = Some room
                   /\ Rooms.connections room !! addrA = Some 0%nat)
  /\ Rooms.connectedIsBound (snd (Rooms.joinRoom exampleGetAddress "roomA" addrB 1 joinedManager))
  /\ Rooms.connectedIsBound (snd (Rooms.leaveRoom exampleGetAddress addrA joinedManager))
  /\ Rooms.connectedIsBound (Rooms.closeRoom "roomA" joinedManager)
  /\ (forall r room,
        Rooms.rooms joinedManager !! r = Some room ->
        is_Some (Rooms.connections room !! addrA) ->
        r = "roomA").
Proof.
  pose proof (proj1 (connections_follow_bindings exampleGetAddress emptyManager
                       emptyManager_bound) 0%nat 5) as H1.
  pose proof (proj1 (connections_follow_bindings exampleGetAddress _ H1) 1%nat 5) as H2.
  pose proof (proj1 (proj2 (connections_follow_bindings exampleGetAddress _ H2))
                "roomA" addrA 0%nat) as H3.
  change (Rooms.connectedIsBound joinedManager) in H3.
  assert (Hroom : exists room, Rooms.rooms joinedManager !! "roomA" = Some room
                               /\ Rooms.connections room !! addrA = Some 0%nat)
    by (vm_compute; eauto).
  destruct (connections_follow_bindings exampleGetAddress joinedManager H3)
    as (_ & Hjoin & Hleave & _ & Hclose & Huniq).
  split; [exact H3|]. split; [exact Hroom|].
  split; [exact (Hjoin "roomA" addrB 1%nat)|].
  split; [exact (Hleave addrA)|].
  split; [exact (Hclose "roomA")|].
  intros r room Hr Hc. destruct Hroom as (roomA' & HrA & HcA).
  exact (Huniq r "roomA" room roomA' addrA Hr HrA Hc (ex_intro _ _ HcA)).
Defined.

Lemma closed_room_witness :
  exampleGetAddress addrA = Some addrA
  /\ Rooms.addressToRoom joinedManager !! addrA = Some "roomA"
  /\ Rooms.rooms joinedManager !! "roomB" = Some roomB
  /\ Rooms.joinRoom exampleGetAddress "roomB" addrA 1 (Rooms.closeRoom "roomA" joinedManager)
     = (Rooms.JoinFailed "Player already in another room",
        Rooms.closeRoom "roomA" joinedManager).
Proof.
  assert (Hb : Rooms.addressToRoom joinedManager !! addrA = Some "roomA")
    by (vm_compute; reflexivity).
  assert (Hr : Rooms.rooms joinedManager !! "roomB" = Some roomB)
    by (vm_compute; reflexivity).
  split; [reflexivity|]. split; [exact Hb|]. split; [exact Hr|].
  pose proof (closed_room_keeps_bindings exampleGetAddress "roomA" "roomB" addrA addrA 1
                joinedManager roomB eq_refl Hb) as Hclosed.
  cbv zeta in Hclosed.
  destruct Hclosed as (_ & _ & Hjoin & _); [discriminate|exact Hr|].
  exact Hjoin.
Defined.

Lemma new_head_witness :
  0 < 20
  /\ Snake.inGrid 20 20 {| Snake.x := 0; Snake.y := 7 |}
  /\ Snake.calculateNewHead 20 20 {| Snake.x := 0; Snake.y := 7 |} "LEFT"
     = Some {| Snake.x := 20 - 1; Snake.y := 7 |}.
Proof.
  assert (Hin : Snake.inGrid 20 20 {| Snake.x := 0; Snake.y := 7 |})
    by (unfold Snake.inGrid; cbn; lia).
  split; [lia|]. split; [exact Hin|].
  refine (proj1 (proj2 (proj2 (new_head_stays_in_grid 20 20 _ _
                                 {| Snake.x := 0; Snake.y := 7 |} "LEFT" Hin))) eq_refl);
    lia.
Defined.

Lemma opposite_step_witness :
  Snake.inGrid 20 20 {| Snake.x := 19; Snake.y := 0 |}
  /\ Snake.calculateNewHead 20 20 {| Snake.x := 19; Snake.y := 0 |} "RIGHT"
     = Some {| Snake.x := 0; Snake.y := 0 |}
  /\ Snake.calculateNewHead 20 20 {| Snake.x := 0; Snake.y := 0 |} (Snake.opposite "RIGHT")
     = Some {| Snake.x := 19; Snake.y := 0 |}
  /\ Snake.steps 20 20 (Z.to_nat 20) "RIGHT" {| Snake.x := 19; Snake.y := 0 |}
     = Some {| Snake.x := 19; Snake.y := 0 |}.
Proof.
  assert (Hin : Snake.inGrid 20 20 {| Snake.x := 19; Snake.y := 0 |})
    by (unfold Snake.inGrid; cbn; lia).
  split; [exact Hin|]. split; [reflexivity|].
  refine (opposite_step_returns 20 20 _ _ {| Snake.x := 19; Snake.y := 0 |} "RIGHT"
            {| Snake.x := 0; Snake.y := 0 |} Hin eq_refl); lia.
Defined.


Lemma await_timeout_witness :
  awaitByMethod "submit_app_state" [FOther; ackCreated; ackClosed]
  = Thrown (TimedOut "submit_app_state").
Proof.
  apply (proj2 (await_times_out_iff "submit_app_state" [FOther; ackCreated; ackClosed])).
  reflexivity.
Defined.


Example sendRequest_after_socket_closed :
  Client.sendRequest true "get_channels"
    (fst (clientRun [EvConnect; EvOpen true; EvSocketClosed; EvClose] newClient))
  = (None, fst (clientRun [EvConnect; EvOpen true; EvSocketClosed; EvClose] newClient), []).
Proof. vm_compute. reflexivity. Qed.

Lemma join_iff_witness :
  exists ready m',
    Rooms.joinRoom exampleGetAddress "roomA" addrB 1 joinedManager
    = (Rooms.Joined "roomA" ready, m').
Proof.
  apply (proj2 (proj1 (join_succeeds_iff exampleGetAddress "roomA" addrB 1 joinedManager))).
  exists addrB. split; [reflexivity|]. split.
  - vm_compute. eauto.
  - left. vm_compute. reflexivity.
Defined.

Lemma broadcast_witness :
  Rooms.rooms (Rooms.broadcastToRoom "roomA" "game:over" "{}" joinedManager)
  = Rooms.rooms joinedManager
  /\ Rooms.addressToRoom (Rooms.broadcastToRoom "roomA" "game:over" "{}" joinedManager)
     = Rooms.addressToRoom joinedManager.
Proof.
  pose proof (broadcast_reaches_open_connections "roomA" "game:over" "{}" joinedManager)
    as (Hrooms & Haddr & _).
  split; [exact Hrooms|exact Haddr].
Defined.

Example broadcast_example :
  Rooms.outbox (Rooms.sockets (Rooms.broadcastToRoom "roomA" "game:over" "{}" joinedManager) 0)
  = [("game:over", "{}")]
  /\ Rooms.outbox
       (Rooms.sockets (Rooms.broadcastToRoom "roomA" "game:over" "{}" joinedManager) 1)
     = [].
Proof. vm_compute. split; reflexivity. Qed.

Lemma closeRoom_witness :
  Rooms.rooms (Rooms.closeRoom "roomA" joinedManager) !! "roomA" = None
  /\ Rooms.closeRoom "roomA" (Rooms.closeRoom "roomA" joinedManager)
     = Rooms.closeRoom "roomA" joinedManager.
Proof.
  pose proof (closeRoom_closes_every_connection "roomA" joinedManager) as (Hgone & _ & Hidem & _).
  split; [exact Hgone|exact Hidem].
Defined.

Example closeRoom_example :
  Rooms.readyState (Rooms.sockets (Rooms.closeRoom "roomA" joinedManager) 0) = 2
  /\ Rooms.readyState (Rooms.sockets (Rooms.closeRoom "roomA" joinedManager) 1) = 1.
Proof. vm_compute. split; reflexivity. Qed.

(** Room [r1] is hosted by A, the first player of the session stored for
    [r1]. The game names [player1]: the handler reaches [closeAppSession],
    which dies on [totalPot]; the handler swallows the error although the
    ledger would have acknowledged the close, and the session stays. *)
Lemma gameover_handler_witness :
  (exists room,
      Rooms.rooms sessionManager !! "r1" = Some room /\ Rooms.host room = Some addrA)
  /\ roomAppSessions activeWorld !! "r1" = Some activeSession
  /\ exampleGetAddress addrA = Some (Active.participantA activeSession)
  /\ handleGameOverAppSession exampleGetAddress (exampleEnv [ackClosed]) "r1"
       (Some "player1") sessionManager activeWorld
     = (Returned tt, activeWorld).
Proof.
  assert (Hroom : exists room,
             Rooms.rooms sessionManager !! "r1" = Some room
             /\ Rooms.host room = Some addrA) by (vm_compute; eauto).
  assert (Hs : roomAppSessions activeWorld !! "r1" = Some activeSession)
    by (vm_compute; reflexivity).
  assert (Ha : exampleGetAddress addrA = Some (Active.participantA activeSession))
    by (vm_compute; reflexivity).
  split; [exact Hroom|]. split; [exact Hs|]. split; [exact Ha|].
  destruct Hroom as (room & Hr & Hh).
  destruct (gameover_handler_never_throws exampleGetAddress (exampleEnv [ackClosed]) "r1"
              (Some "player1") sessionManager activeWorld)
    as (w' & Hret & _ & _ & _ & Hwin).
  rewrite Hret. f_equal.
  apply (Hwin room activeSession addrA Hr Hs eq_refl Hh).
  - discriminate.
  - exact Ha.
  - vm_compute. discriminate.
  - reflexivity.
  - reflexivity.
Defined.

(** With any other verdict the winner is left out, the close goes through
    and the acknowledged session is deleted. *)
Example gameover_other_verdict_closes :
  handleGameOverAppSession exampleGetAddress (exampleEnv [ackClosed]) "r1"
    (Some "player2") sessionManager activeWorld
  = (Returned tt, closedWorld)
  /\ roomAppSessions closedWorld !! "r1" = None.
Proof. vm_compute. split; reflexivity. Qed.
